(** * convertmysqldump.py: conversion of MyISAM tables to InnoDB in a MySQL dump

    A shallow embedding of [src/convertmysqldump.py] and the proofs of the
    properties its specification states.

    Text is modelled as Python 3 has it: a [str] is a sequence of Unicode
    code points.  The three regular expressions of [ProcessFiles] are
    embedded as backtracking matchers written in continuation-passing style,
    one combinator per regular-expression construct, explored in the order
    in which Python's [re] explores them (greedy first, shorter on failure).

    The Unicode character database is not part of the source.  Its two
    tables the program consults outside the ASCII range, [str.isalnum] (for
    [\w]) and the full upper-case mapping (for [str.upper]), are taken as
    the section variables [uni_isalnum] and [uni_upper]; inside the ASCII
    range both are written out. *)

From Stdlib Require Import List NArith Bool String Ascii Lia Arith.
Import ListNotations.

Local Open Scope N_scope.

(** ** Text *)

(** A code point, and a Python [str]. *)
Definition char := N.
Definition text := list char.

(** The [str] made of the characters of an ASCII literal. *)
Definition str (s : string) : text := map N_of_ascii (list_ascii_of_string s).

Definition NL : char := 10.       (* '\n' *)
Definition BACKTICK : char := 96. (* '`'  *)
Definition UNDERSCORE : char := 95.

Fixpoint text_eqb (a b : text) : bool :=
  match a, b with
  | [], [] => true
  | x :: a', y :: b' => (x =? y) && text_eqb a' b'
  | _, _ => false
  end.

(** [x in l] for a list of strings. *)
Definition mem (x : text) (l : list text) : bool := existsb (text_eqb x) l.

(** ** Case-insensitive matching of an ASCII pattern literal

    With [re.IGNORECASE] on a [str] pattern, a cased ASCII literal [p]
    matches the code point [c] when the simple lower case of [c] is the lower
    case of [p] or one of its listed equivalents.  Only two code points
    outside ASCII have an ASCII simple lower case (U+0130 to [i], U+212A to
    [k]), and the equivalents of [i] and [s] are U+0131 and U+017F.  [fold]
    sends every code point that matches an ASCII letter to that letter in
    lower case and leaves every other code point alone, so that a pattern
    literal [p] of the ASCII range matches [c] exactly when
    [fold c = fold p]. *)
Definition fold (c : char) : char :=
  if (65 <=? c) && (c <=? 90) then c + 32
  else if (c =? 304) || (c =? 305) then 105   (* U+0130, U+0131: i *)
  else if c =? 383 then 115                     (* U+017F: s *)
  else if c =? 8490 then 107                    (* U+212A: k *)
  else c.

Definition ieq (p c : char) : bool := fold c =? fold p.

(** The pattern literals [pat], matched case-insensitively at the head of
    [s]: the rest of [s] after them. *)
Fixpoint lit_ci (pat s : text) : option text :=
  match pat with
  | [] => Some s
  | p :: pat' =>
      match s with
      | c :: s' => if ieq p c then lit_ci pat' s' else None
      | [] => None
      end
  end.

(** ** ASCII part of the character tables *)

Definition ascii_isalnum (c : char) : bool :=
  ((48 <=? c) && (c <=? 57)) || ((65 <=? c) && (c <=? 90))
  || ((97 <=? c) && (c <=? 122)).

Definition ascii_upper (c : char) : char :=
  if (97 <=? c) && (c <=? 122) then c - 32 else c.

(** The two tables of a character database that knows no letter or digit
    outside ASCII, to run the program on ASCII text, where neither is
    consulted. *)
Definition plain_isalnum : char -> bool := fun _ => false.
Definition plain_upper : char -> text := fun c => [c].

Section Transformer.

(** [str.isalnum] and the full upper-case mapping of one code point, outside
    the ASCII range. *)
Variable uni_isalnum : char -> bool.
Variable uni_upper : char -> text.

(** [\w] in a [str] pattern: alphanumeric in the Unicode database, or the
    underscore. *)
Definition is_word (c : char) : bool :=
  (if c <? 128 then ascii_isalnum c else uni_isalnum c) || (c =? UNDERSCORE).

(** [s.upper()]: the full upper-case mapping, character by character. *)
Definition upper (s : text) : text :=
  flat_map (fun c => if c <? 128 then [ascii_upper c] else uni_upper c) s.

(** ** Regular-expression combinators

    Each takes the text still to be matched and the continuation [k] that
    matches the rest of the pattern, and returns the result of the first
    successful path. *)

Section Combinators.
Context {A : Type}.

(** [.*]: any run of characters other than a newline, the longest first. *)
Fixpoint dot_star (s : text) (k : text -> option A) : option A :=
  match s with
  | [] => k []
  | c :: s' =>
      if c =? NL then k s
      else match dot_star s' k with
           | Some r => Some r
           | None => k s
           end
  end.

(** [\w*] continuing a run [acc] already matched, the longest first. *)
Fixpoint word_star (acc s : text) (k : text -> text -> option A) : option A :=
  match s with
  | [] => k acc []
  | c :: s' =>
      if is_word c then
        match word_star (acc ++ [c]) s' k with
        | Some r => Some r
        | None => k acc s
        end
      else k acc s
  end.

(** [(\w+)]: a run of at least one word character, handed to [k]. *)
Definition word_plus (s : text) (k : text -> text -> option A) : option A :=
  match s with
  | c :: s' => if is_word c then word_star [c] s' k else None
  | [] => None
  end.

(** One literal character, matched exactly. *)
Definition lit1 (p : char) (s : text) (k : text -> option A) : option A :=
  match s with
  | c :: s' => if c =? p then k s' else None
  | [] => None
  end.

End Combinators.

(** [$] without [re.MULTILINE]: the end of the string, or just before a
    newline that ends the string. *)
Definition at_eol (s : text) : bool :=
  match s with
  | [] => true
  | [c] => c =? NL
  | _ => false
  end.

(** [(^KEYWORDS.*`)(\w+)(`.*$)] searched in [line]: [groups()[1]] of the
    match.  [^] holds at the start of the string only, so the search matches
    at position 0 or not at all. *)
Definition marker_re (keywords : text) (line : text) : option text :=
  match lit_ci keywords line with
  | None => None
  | Some r0 =>
      dot_star r0 (fun r1 =>
      lit1 BACKTICK r1 (fun r2 =>
      word_plus r2 (fun name r3 =>
      lit1 BACKTICK r3 (fun r4 =>
      dot_star r4 (fun r5 =>
      if at_eol r5 then Some name else None)))))
  end.

(** [database_re.search(line)] and [table_re.search(line)], reduced to the
    group the program reads. *)
Definition database_re : text -> option text := marker_re (str "CREATE DATABASE").
Definition table_re : text -> option text := marker_re (str "CREATE TABLE").

Definition MyISAM : text := str "MyISAM".
Definition InnoDB : text := str "InnoDB".

(** [myisam_re.search(line)] as a truth value. *)
Fixpoint myisam_search (line : text) : bool :=
  match lit_ci MyISAM line with
  | Some _ => true
  | None => match line with
            | [] => false
            | _ :: line' => myisam_search line'
            end
  end.

(** [myisam_re.sub('InnoDB', line)]: the line is scanned from the left; at a
    match the replacement is emitted and the scan resumes after the match,
    elsewhere the character is copied.  [skip] counts the characters of the
    current match still to be passed over. *)
Fixpoint sub_from (skip : nat) (line : text) : text :=
  match line with
  | [] => []
  | c :: line' =>
      match skip with
      | S k => sub_from k line'
      | O =>
          match lit_ci MyISAM line with
          | Some _ => InnoDB ++ sub_from (pred (List.length MyISAM)) line'
          | None => c :: sub_from O line'
          end
      end
  end.

Definition myisam_sub (line : text) : text := sub_from O line.

(** [s.rstrip()]: trailing white space removed ([str.isspace], a fixed set
    of code points). *)
Definition is_space (c : char) : bool :=
  ((9 <=? c) && (c <=? 13)) || ((28 <=? c) && (c <=? 32))
  || (c =? 133) || (c =? 160) || (c =? 5760)
  || ((8192 <=? c) && (c <=? 8202))
  || (c =? 8232) || (c =? 8233) || (c =? 8239) || (c =? 8287) || (c =? 12288).

Fixpoint lstrip (s : text) : text :=
  match s with
  | c :: s' => if is_space c then lstrip s' else s
  | [] => []
  end.

Definition rstrip (s : text) : text := rev (lstrip (rev s)).

(** ** The state of [ProcessFiles] *)

(** The calls of [logging], by their arguments. *)
Inductive event : Type :=
| FoundDatabase (lineno : nat) (name : text) (excluded : bool)
| FoundTable (lineno : nat) (name : text)
| Changing (lineno : nat) (db : option text) (tbl : text) (old new : text)
| Summary (read chg pres : nat)
| Converting (inp out : string) (forcible : bool)
| AlreadyExists (out : string)
| OpenedForReading (inp : string)
| OpenedForWriting (out : string).

(** The local variables of [ProcessFiles], with the two objects it writes
    to.  [table] and [n] have no binding until their first assignment:
    [None] there stands for "not bound"; for [database] it stands for
    Python's [None]. *)
Record locals : Type := mkLocals {
  database : option text;
  table : option text;
  isexcluded : bool;
  preserved : nat;
  changed : nat;
  n : option nat;
  outfile : list text;   (* the arguments of outfile.write, in order *)
  log : list event       (* the calls of logging.info, in order *)
}.

Inductive exception : Type :=
| AttributeError            (* 'NoneType' object has no attribute 'upper' *)
| UnboundLocalError (var : string).

(** How a run of the function ends: it returns, or an exception leaves it;
    either way with the locals, and what was written, as they are then. *)
Inductive outcome : Type :=
| Returned (s : locals)
| Raised (e : exception) (s : locals).

Definition final (r : outcome) : locals :=
  match r with Returned s => s | Raised _ s => s end.

Definition returned (r : outcome) : bool :=
  match r with Returned _ => true | Raised _ _ => false end.

Definition andthen (r : outcome) (f : locals -> outcome) : outcome :=
  match r with Returned s => f s | Raised e s => Raised e s end.

Notation "s <- r ;; f" := (andthen r (fun s => f))
  (at level 61, r at next level, right associativity).

Definition set_n (i : nat) (s : locals) : locals :=
  mkLocals (database s) (table s) (isexcluded s) (preserved s) (changed s)
           (Some i) (outfile s) (log s).

Definition set_database (d : text) (ex : bool) (s : locals) : locals :=
  mkLocals (Some d) (table s) ex (preserved s) (changed s)
           (n s) (outfile s) (log s).

Definition set_table (t : text) (s : locals) : locals :=
  mkLocals (database s) (Some t) (isexcluded s) (preserved s) (changed s)
           (n s) (outfile s) (log s).

Definition set_isexcluded (ex : bool) (s : locals) : locals :=
  mkLocals (database s) (table s) ex (preserved s) (changed s)
           (n s) (outfile s) (log s).

Definition logging_info (e : event) (s : locals) : locals :=
  mkLocals (database s) (table s) (isexcluded s) (preserved s) (changed s)
           (n s) (outfile s) (log s ++ [e]).

Definition write_changed (newline : text) (s : locals) : locals :=
  mkLocals (database s) (table s) (isexcluded s) (preserved s) (S (changed s))
           (n s) (outfile s ++ [newline]) (log s).

Definition write_preserved (line : text) (s : locals) : locals :=
  mkLocals (database s) (table s) (isexcluded s) (S (preserved s)) (changed s)
           (n s) (outfile s ++ [line]) (log s).

(** The locals before the loop. *)
Definition initial : locals :=
  mkLocals None None true 0%nat 0%nat None [] [].

Section ProcessFiles.

(** The third argument of [ProcessFiles]. *)
Variable excluded : list text.

(** [if founddb: ...] *)
Definition on_database (i : nat) (line : text) (s : locals) : outcome :=
  match database_re line with
  | Some d =>
      let ex := mem (upper d) excluded in
      Returned (logging_info (FoundDatabase (i + 1) d ex) (set_database d ex s))
  | None => Returned s
  end.

(** [if foundtable: ...]; [database.upper()] raises when [database] is
    [None]. *)
Definition on_table (i : nat) (line : text) (s : locals) : outcome :=
  match table_re line with
  | Some t =>
      let s := set_table t s in
      match database s with
      | None => Raised AttributeError s
      | Some d =>
          Returned (logging_info (FoundTable (i + 1) t)
                      (set_isexcluded (mem (upper d) excluded) s))
      end
  | None => Returned s
  end.

(** The [if not isexcluded and myisam_re.search(line)] statement.  The
    arguments of the [logging.info] call are evaluated before
    [outfile.write]: reading [table] raises when it is not bound. *)
Definition on_engine (i : nat) (line : text) (s : locals) : outcome :=
  if negb (isexcluded s) && myisam_search line then
    let newline := myisam_sub line in
    match table s with
    | None => Raised (UnboundLocalError "table") s
    | Some t =>
        Returned (write_changed newline
                    (logging_info
                       (Changing (i + 1) (database s) t (rstrip line) (rstrip newline))
                       s))
    end
  else Returned (write_preserved line s).

(** One iteration of the loop, for the pair [(i, line)] of [enumerate]. *)
Definition body (i : nat) (line : text) (s : locals) : outcome :=
  s <- on_database i line (set_n i s) ;;
  s <- on_table i line s ;;
  on_engine i line s.

(** [for n, line in enumerate(infile)], from index [i]. *)
Fixpoint for_loop (i : nat) (infile : list text) (s : locals) : outcome :=
  match infile with
  | [] => Returned s
  | line :: rest => s <- body i line s ;; for_loop (S i) rest s
  end.

(** The last statement: [n + 1] raises when the loop never bound [n]. *)
Definition summary (s : locals) : outcome :=
  match n s with
  | None => Raised (UnboundLocalError "n") s
  | Some k => Returned (logging_info (Summary (k + 1) (changed s) (preserved s)) s)
  end.

Definition ProcessFiles (infile : list text) : outcome :=
  s <- for_loop 0 infile initial ;; summary s.

End ProcessFiles.

(** ** The script

    The file system is a map from paths to the decoded text of regular
    files; every path is taken to name a regular file or nothing, and the
    output file to be creatable. *)

Definition filesystem := string -> option text.

Definition fs_write (fs : filesystem) (path : string) (content : text) : filesystem :=
  fun p => if String.eqb p path then Some content else fs p.

(** [os.path.exists] *)
Definition exists_ (fs : filesystem) (path : string) : bool :=
  match fs path with Some _ => true | None => false end.

(** Reading in text mode with the default [newline=None]: the sequences
    CR LF and CR become LF. *)
Fixpoint universal_newlines (s : text) : text :=
  match s with
  | [] => []
  | c :: s' =>
      if c =? 13 then
        match s' with
        | d :: s'' => if d =? NL then NL :: universal_newlines s''
                      else NL :: universal_newlines s'
        | [] => [NL]
        end
      else c :: universal_newlines s'
  end.

(** The lines a text file yields when iterated: each up to and including
    its newline, the last possibly without one.  [cur] is the line being
    read. *)
Fixpoint lines_from (cur s : text) : list text :=
  match s with
  | [] => match cur with [] => [] | _ => [cur] end
  | c :: s' =>
      if c =? NL then (cur ++ [c]) :: lines_from [] s'
      else lines_from (cur ++ [c]) s'
  end.

Definition readlines (content : text) : list text :=
  lines_from [] (universal_newlines content).

(** [argparse]'s namespace. *)
Record namespace : Type := mkArgs {
  verbose : bool;
  force : bool;
  input : string;
  output : string
}.

Inductive level : Type := DEBUG | INFO | ERROR.

(** What a run of the script leaves behind: the file system, the logging
    calls with their levels, the paths it opened, and the exit status of the
    interpreter (0 when the script runs to its end, 1 when an exception
    leaves it). *)
Record process : Type := mkProcess {
  files : filesystem;
  records : list (level * event);
  opened : list string;
  exit_status : nat
}.

(** An exit status other than 0 tells the caller that the run failed. *)
Definition indicates_failure (status : nat) : Prop := status <> 0%nat.

(** The records [SetupLogging(verbose)] lets through. *)
Definition shown (verbose : bool) (rs : list (level * event)) : list (level * event) :=
  filter (fun r => match fst r with DEBUG => verbose | _ => true end) rs.

(** The default list of databases which are not changed. *)
Definition default_excluded : list text := [str "mysql"].

(** The body of [if __name__ == '__main__'], after the arguments are
    parsed. *)
Definition main (args : namespace) (fs : filesystem) : process :=
  let start := [(DEBUG, Converting (input args) (output args) (force args))] in
  let excluded := default_excluded in
  if exists_ fs (output args) && negb (force args) then
    mkProcess fs (start ++ [(ERROR, AlreadyExists (output args))]) [] 0
  else
    match fs (input args) with
    | None => mkProcess fs start [] 1     (* open(args.input) raises *)
    | Some _ =>
        let fs1 := fs_write fs (output args) [] in  (* open(args.output, 'w') *)
        let infile :=
          match fs1 (input args) with
          | Some content => readlines content
          | None => []
          end in
        let r := ProcessFiles (map upper excluded) infile in
        mkProcess
          (fs_write fs1 (output args) (List.concat (outfile (final r))))
          (start ++ [(DEBUG, OpenedForReading (input args));
                     (DEBUG, OpenedForWriting (output args))]
                 ++ map (fun e => (INFO, e)) (log (final r)))
          [input args; output args]
          (if returned r then 0%nat else 1%nat)
    end.

(** ** Inputs of the scenarios *)

(** A line of ASCII text with its newline. *)
Definition textline (s : string) : text := str s ++ [NL].

(** Scenario A of the specification. *)
Definition scenario_A : list text :=
  [textline "CREATE DATABASE `appdb`;"; textline ") ENGINE=MyISAM;"].

(** A dump with an excluded and a converted schema. *)
Definition small_dump : list text :=
  [textline "-- MySQL dump (MyISAM tables)";
   textline "CREATE DATABASE `MySQL`;";
   textline "CREATE TABLE `user` (";
   textline ") ENGINE=MyISAM;";
   textline "CREATE DATABASE `appdb`;";
   textline "CREATE TABLE `t` (";
   textline ") engine=myisam;"].

(** An existing output file, and no [--force]. *)
Definition scenario_C_args : namespace := mkArgs false false "dump.sql" "out.sql".

Definition scenario_C_files : filesystem :=
  fun p => if String.eqb p "dump.sql" then Some (List.concat scenario_A)
           else if String.eqb p "out.sql" then Some (str "kept")
           else None.

(** ** Notions used in the statements *)

(** The specification's reading of [SubstituteEngineToken]: going through
    the line from the left, each occurrence of the source identifier (in any
    letter case) is replaced by [InnoDB] and every other character is kept. *)
Inductive Replaced : text -> text -> Prop :=
| Replaced_end : Replaced [] []
| Replaced_occurrence (line rest out : text) :
    lit_ci MyISAM line = Some rest ->
    Replaced rest out ->
    Replaced line (InnoDB ++ out)
| Replaced_keep (c : char) (line out : text) :
    lit_ci MyISAM (c :: line) = None ->
    Replaced line out ->
    Replaced (c :: line) (c :: out).

(** A character [.] matches, and a character [\w] matches. *)
Definition not_newline (c : char) : Prop := (c =? NL) = false.
Definition word (c : char) : Prop := is_word c = true.

(** A line that is neither a schema marker nor a table marker. *)
Definition no_marker (line : text) : Prop :=
  database_re line = None /\ table_re line = None.

(** What the two marker statements of an iteration leave in [database],
    [table] and [isexcluded] when they raise nothing. *)
Definition next_database (line : text) (s : locals) : option text :=
  match database_re line with Some d => Some d | None => database s end.

Definition next_table (line : text) (s : locals) : option text :=
  match table_re line with Some t => Some t | None => table s end.

Definition flag_of (excluded : list text) (db : option text) : bool :=
  match db with Some d => mem (upper d) excluded | None => true end.

Definition next_isexcluded (excluded : list text) (line : text) (s : locals) : bool :=
  match database_re line, table_re line with
  | None, None => isexcluded s
  | _, _ => flag_of excluded (next_database line s)
  end.

(** The line an iteration writes when it raises nothing. *)
Definition written (excluded : list text) (line : text) (s : locals) : text :=
  if negb (next_isexcluded excluded line s) && myisam_search line
  then myisam_sub line else line.

(** The final report among the logging calls. *)
Definition is_summary (e : event) : bool :=
  match e with Summary _ _ _ => true | _ => false end.

(** [isexcluded] is the membership test of the current [database]. *)
Definition consistent (excluded : list text) (s : locals) : Prop :=
  isexcluded s = flag_of excluded (database s).

(** The locals of a run on an input and of a run on the output of the
    first, at the same line: where the first run excludes, the two have the
    same [database], and the second has seen a schema marker when the first
    has. *)
Definition twin (excluded : list text) (s1 s2 : locals) : Prop :=
  consistent excluded s1 /\ consistent excluded s2 /\
  (isexcluded s1 = true -> database s2 = database s1) /\
  (database s1 <> None -> database s2 <> None).

(** The lines of a text file as Python yields them: no carriage return is
    left, a newline ends every line but possibly the last, and no line is
    empty. *)
Definition inline (c : char) : Prop := (c =? NL) = false /\ (c =? 13) = false.

Inductive file_lines : list text -> Prop :=
| file_lines_none : file_lines []
| file_lines_last (l : text) : l <> [] -> Forall inline l -> file_lines [l]
| file_lines_more (b : text) (ls : list text) :
    Forall inline b -> file_lines ls -> file_lines ((b ++ [NL]) :: ls).

(** The text a run leaves in the output file from the text of the input
    file. *)
Definition transform (excluded : list text) (content : text) : text :=
  List.concat (outfile (final (ProcessFiles excluded (readlines content)))).

(** A way to read [line] as a marker line: the keywords [p], any text [a],
    the back-quoted word [name], any text [b] and the end of the line [e]. *)
Definition marker_split (kw line p a name b e : text) : Prop :=
  line = p ++ a ++ BACKTICK :: name ++ BACKTICK :: b ++ e /\
  lit_ci kw p = Some [] /\ Forall not_newline a /\
  name <> [] /\ Forall word name /\ Forall not_newline b /\ at_eol e = true.

(** The part of a marker expression after its first [.*]: a back-quoted
    word and the rest of the line. *)
Definition quoted_word (r1 : text) : option text :=
  lit1 BACKTICK r1 (fun r2 =>
  word_plus r2 (fun name r3 =>
  lit1 BACKTICK r3 (fun r4 =>
  dot_star r4 (fun r5 =>
  if at_eol r5 then Some name else None)))).

(** The number of lines of the output that differ from the line of the
    input at the same place, and the number that do not. *)
Definition differing (infile out : list text) : nat :=
  List.length (filter (fun p => negb (text_eqb (fst p) (snd p))) (combine infile out)).

Definition agreeing (infile out : list text) : nat :=
  List.length (filter (fun p => text_eqb (fst p) (snd p)) (combine infile out)).

(** A dump in the order the program relies on: no table marker before the
    first schema marker, and from that schema marker on no line holding the
    engine token before the first table marker.  [seen_database] and
    [seen_table] tell whether a marker of the kind has been gone through. *)
Definition marks (o : option text) : bool :=
  match o with Some _ => true | None => false end.

Fixpoint well_ordered (seen_database seen_table : bool) (infile : list text) : bool :=
  match infile with
  | [] => true
  | l :: rest =>
      let db := seen_database || marks (database_re l) in
      let tb := seen_table || marks (table_re l) in
      (negb (marks (table_re l)) || db)
      && (negb (myisam_search l) || tb || negb db)
      && well_ordered db tb rest
  end.

(** The records of a changed line among the logging calls. *)
Definition is_changing (e : event) : bool :=
  match e with Changing _ _ _ _ _ => true | _ => false end.

(** * Properties *)

Section Properties.

Variable excluded : list text.

(** ** The loop *)

Ltac break_match :=
  repeat match goal with
         | |- context [match ?x with _ => _ end] => destruct x eqn:?
         | H : context [match ?x with _ => _ end] |- _ => destruct x eqn:?
         end.

Ltac unfold_body :=
  unfold body, on_database, on_table, on_engine, andthen in *.

Lemma for_loop_app (a b : list text) : forall i s,
  for_loop excluded i (a ++ b) s =
  andthen (for_loop excluded i a s) (for_loop excluded (i + List.length a) b).
Proof.
  induction a as [|line a IH]; intros i s; simpl.
  - now rewrite Nat.add_0_r.
  - destruct (body excluded i line s) as [s'|e s']; simpl; [|reflexivity].
    rewrite IH. now replace (i + S (List.length a))%nat with (S i + List.length a)%nat by lia.
Qed.

(** An iteration that returns has bound [n] and incremented exactly one of
    the two counters. *)
Lemma body_counts i line s s' :
  body excluded i line s = Returned s' ->
  n s' = Some i /\
  ((changed s' = S (changed s) /\ preserved s' = preserved s) \/
   (changed s' = changed s /\ preserved s' = S (preserved s))).
Proof.
  unfold_body. intros H. break_match; inversion H; subst; simpl in *;
    try discriminate;
    repeat match goal with
           | E : Returned _ = Returned _ |- _ => inversion E; subst; clear E
           end; simpl; auto.
Qed.

Lemma for_loop_counts (infile : list text) : forall i s s',
  for_loop excluded i infile s = Returned s' ->
  (changed s' + preserved s' = changed s + preserved s + List.length infile)%nat /\
  (infile <> [] -> n s' = Some (i + List.length infile - 1)%nat).
Proof.
  induction infile as [|line rest IH]; intros i s s' H; simpl in *.
  - inversion H; subst. split; [lia | congruence].
  - destruct (body excluded i line s) as [s1|e s1] eqn:Hb; simpl in H; [|discriminate].
    apply body_counts in Hb. destruct Hb as [Hn Hc].
    pose proof (IH _ _ _ H) as [Hsum Hlast]. split; [lia|].
    intros _. destruct rest as [|l2 rest].
    + simpl in H. inversion H; subst. rewrite Hn. f_equal. simpl. lia.
    + rewrite Hlast by discriminate. f_equal. simpl. lia.
Qed.

(** ** The three ways an iteration can go *)

(** A table marker while [database] is [None]: [AttributeError], nothing
    written. *)
Lemma body_AttributeError i line s :
  table_re line <> None -> next_database line s = None ->
  exists s', body excluded i line s = Raised AttributeError s' /\
             outfile s' = outfile s /\ changed s' = changed s /\
             preserved s' = preserved s /\ log s' = log s.
Proof.
  unfold next_database. unfold_body. intros Ht Hd.
  destruct (database_re line); [discriminate|].
  destruct (table_re line); [|contradiction]. simpl in *. rewrite Hd.
  eexists. split; [reflexivity|]. repeat split.
Qed.

(** The line is written as it is and counted as preserved. *)
Lemma body_preserved i line s :
  (table_re line <> None -> next_database line s <> None) ->
  next_isexcluded excluded line s = true \/ myisam_search line = false ->
  exists s', body excluded i line s = Returned s' /\
             outfile s' = outfile s ++ [line] /\
             changed s' = changed s /\ preserved s' = S (preserved s) /\
             database s' = next_database line s /\
             table s' = next_table line s /\
             isexcluded s' = next_isexcluded excluded line s /\
             n s' = Some i.
Proof.
  intros Hd Hex.
  assert (Hif : negb (next_isexcluded excluded line s) && myisam_search line = false).
  { destruct Hex as [-> | ->]; [reflexivity | apply andb_false_r]. }
  clear Hex. revert Hd Hif.
  unfold next_isexcluded, next_database, next_table, flag_of. unfold_body.
  destruct (database_re line) as [d|]; destruct (table_re line) as [t|];
    simpl; intros Hd Hif.
  - rewrite Hif. eexists. split; [reflexivity|]. repeat split.
  - rewrite Hif. eexists. split; [reflexivity|]. repeat split.
  - destruct (database s) as [d|] eqn:Ed; [|exfalso; now apply Hd]. simpl.
    rewrite Hif. eexists. split; [reflexivity|]. repeat split. exact Ed.
  - rewrite Hif. eexists. split; [reflexivity|]. repeat split.
Qed.

(** The line holds the engine token and the schema is not excluded: the
    substituted line is written and counted as changed when [table] is
    bound, and [UnboundLocalError] is raised, with nothing written, when it
    is not. *)
Lemma body_changed i line s :
  next_isexcluded excluded line s = false -> myisam_search line = true ->
  match next_table line s with
  | Some _ =>
      exists s', body excluded i line s = Returned s' /\
                 outfile s' = outfile s ++ [myisam_sub line] /\
                 changed s' = S (changed s) /\ preserved s' = preserved s /\
                 database s' = next_database line s /\
                 table s' = next_table line s /\
                 isexcluded s' = false /\
                 n s' = Some i
  | None =>
      exists s', body excluded i line s = Raised (UnboundLocalError "table") s' /\
                 outfile s' = outfile s /\ changed s' = changed s /\
                 preserved s' = preserved s
  end.
Proof.
  intros Hex Hs.
  assert (Hif : negb (next_isexcluded excluded line s) && myisam_search line = true)
    by now rewrite Hex, Hs.
  revert Hex Hif.
  unfold next_isexcluded, next_database, next_table, flag_of. unfold_body.
  destruct (database_re line) as [d|]; destruct (table_re line) as [t|];
    simpl; intros Hex Hif.
  - rewrite Hif. eexists. split; [reflexivity|]. repeat split; simpl; auto.
  - rewrite Hif. destruct (table s) eqn:Et; eexists; (split; [reflexivity|]);
      repeat split; simpl; auto.
  - destruct (database s) as [d|] eqn:Ed; [|discriminate]. simpl.
    rewrite Hif. eexists. split; [reflexivity|]. repeat split; simpl; auto.
  - rewrite Hif. destruct (table s) eqn:Et; eexists; (split; [reflexivity|]);
      repeat split; simpl; auto.
Qed.

(** Every iteration goes one of these ways. *)
Lemma body_inv i line s :
  match body excluded i line s with
  | Returned s' =>
      (table_re line <> None -> next_database line s <> None) /\
      (next_isexcluded excluded line s = false -> myisam_search line = true ->
       next_table line s <> None) /\
      outfile s' = outfile s ++ [written excluded line s] /\
      database s' = next_database line s /\
      table s' = next_table line s /\
      isexcluded s' = next_isexcluded excluded line s /\
      n s' = Some i /\
      (if negb (next_isexcluded excluded line s) && myisam_search line
       then changed s' = S (changed s) /\ preserved s' = preserved s
       else changed s' = changed s /\ preserved s' = S (preserved s))
  | Raised e s' =>
      outfile s' = outfile s /\ changed s' = changed s /\
      preserved s' = preserved s /\
      ((e = AttributeError /\ table_re line <> None /\ next_database line s = None) \/
       (e = UnboundLocalError "table" /\ next_isexcluded excluded line s = false /\
        myisam_search line = true /\ next_table line s = None /\
        (table_re line <> None -> next_database line s <> None)))
  end.
Proof.
  destruct (table_re line) as [t|] eqn:Et.
  - destruct (next_database line s) as [d|] eqn:Ed.
    + assert (Hd : table_re line <> None -> next_database line s <> None)
        by (rewrite Ed; discriminate).
      unfold written.
      destruct (next_isexcluded excluded line s) eqn:Ex;
        [|destruct (myisam_search line) eqn:Hs].
      * destruct (body_preserved i line s Hd (or_introl Ex))
          as (s' & -> & ? & ? & ? & ? & ? & ? & ?).
        rewrite Ex, Ed in *. simpl. repeat split; auto; discriminate.
      * pose proof (body_changed i line s Ex Hs) as H.
        unfold next_table in *. rewrite Et in *.
        destruct H as (s' & -> & ? & ? & ? & ? & ? & ? & ?).
        rewrite Ed in *. simpl. repeat split; auto; discriminate.
      * destruct (body_preserved i line s Hd (or_intror Hs))
          as (s' & -> & ? & ? & ? & ? & ? & ? & ?).
        rewrite Ex, Ed in *. rewrite andb_false_r.
        repeat split; auto; discriminate.
    + destruct (body_AttributeError i line s) as (s' & -> & ? & ? & ? & ?);
        [rewrite Et; discriminate | exact Ed |].
      repeat split; auto. left. repeat split; auto. discriminate.
  - assert (Hd : table_re line <> None -> next_database line s <> None)
      by (rewrite Et; intros H; now contradiction H).
    unfold written.
    destruct (next_isexcluded excluded line s) eqn:Ex;
      [|destruct (myisam_search line) eqn:Hs].
    + destruct (body_preserved i line s Hd (or_introl Ex))
        as (s' & -> & ? & ? & ? & ? & ? & ? & ?).
      rewrite Ex in *. simpl. repeat split; auto; discriminate.
    + pose proof (body_changed i line s Ex Hs) as H.
      destruct (next_table line s) as [t|] eqn:Etb.
      * destruct H as (s' & -> & ? & ? & ? & ? & ? & ? & ?).
        simpl. repeat split; auto; discriminate.
      * destruct H as (s' & -> & ? & ? & ?).
        repeat split; auto. right. repeat split; auto.
    + destruct (body_preserved i line s Hd (or_intror Hs))
        as (s' & -> & ? & ? & ? & ? & ? & ? & ?).
      rewrite Ex in *. rewrite andb_false_r. repeat split; auto; discriminate.
Qed.

(** An iteration keeps [isexcluded] consistent with [database]. *)
Lemma next_isexcluded_consistent line s :
  consistent excluded s ->
  next_isexcluded excluded line s = flag_of excluded (next_database line s).
Proof.
  unfold consistent, next_isexcluded, next_database. intros H.
  destruct (database_re line); destruct (table_re line); auto.
Qed.

(** ** The engine token *)

Lemma lit_ci_skipn (pat : text) : forall s rest,
  lit_ci pat s = Some rest -> rest = skipn (List.length pat) s.
Proof.
  induction pat as [|p pat IH]; intros s rest H; simpl in *.
  - congruence.
  - destruct s as [|c s]; [discriminate|].
    destruct (ieq p c); [|discriminate]. now apply IH.
Qed.

Lemma lit_ci_length (pat : text) : forall s rest,
  lit_ci pat s = Some rest -> List.length s = (List.length pat + List.length rest)%nat.
Proof.
  induction pat as [|p pat IH]; intros s rest H; simpl in *.
  - congruence.
  - destruct s as [|c s]; [discriminate|].
    destruct (ieq p c); [|discriminate]. simpl. f_equal. now apply IH.
Qed.

Lemma sub_from_skipn : forall line k, sub_from k line = sub_from 0 (skipn k line).
Proof.
  induction line as [|c line IH]; intros [|k]; try reflexivity.
  simpl skipn. cbn [sub_from]. apply IH.
Qed.

(** The equations of [myisam_sub]. *)
Lemma myisam_sub_nil : myisam_sub [] = [].
Proof. reflexivity. Qed.

Lemma myisam_sub_match line rest :
  lit_ci MyISAM line = Some rest -> myisam_sub line = InnoDB ++ myisam_sub rest.
Proof.
  intros H. pose proof (lit_ci_skipn _ _ _ H) as Hr.
  destruct line as [|c line]; [discriminate|].
  unfold myisam_sub. cbn [sub_from]. rewrite H. f_equal.
  rewrite sub_from_skipn. now subst rest.
Qed.

Lemma myisam_sub_keep c line :
  lit_ci MyISAM (c :: line) = None -> myisam_sub (c :: line) = c :: myisam_sub line.
Proof. intros H. unfold myisam_sub. cbn [sub_from]. now rewrite H. Qed.

(** Induction along the scan of [myisam_sub]. *)
Lemma myisam_sub_ind (P : text -> text -> Prop) :
  P [] [] ->
  (forall line rest, lit_ci MyISAM line = Some rest ->
     P rest (myisam_sub rest) -> P line (InnoDB ++ myisam_sub rest)) ->
  (forall c line, lit_ci MyISAM (c :: line) = None ->
     P line (myisam_sub line) -> P (c :: line) (c :: myisam_sub line)) ->
  forall line, P line (myisam_sub line).
Proof.
  intros Hnil Hocc Hkeep line.
  remember (List.length line) as m eqn:Hm.
  revert line Hm. induction m as [m IH] using lt_wf_ind. intros line Hm.
  destruct (lit_ci MyISAM line) as [rest|] eqn:E.
  - rewrite (myisam_sub_match _ _ E). apply Hocc; [exact E|].
    apply (IH (List.length rest)); [|reflexivity].
    apply lit_ci_length in E. simpl in E. lia.
  - destruct line as [|c line]; [exact Hnil|].
    rewrite (myisam_sub_keep _ _ E). apply Hkeep; [exact E|].
    apply (IH (List.length line)); [|reflexivity]. simpl in Hm. lia.
Qed.

(** The code's substitution is the specification's. *)
Lemma myisam_sub_Replaced line : Replaced line (myisam_sub line).
Proof.
  apply myisam_sub_ind.
  - constructor.
  - intros; econstructor; eassumption.
  - intros; now constructor.
Qed.

Lemma Replaced_fun line out : Replaced line out -> out = myisam_sub line.
Proof.
  induction 1.
  - reflexivity.
  - subst. symmetry. now apply myisam_sub_match.
  - subst. symmetry. now apply myisam_sub_keep.
Qed.

(** A match of a tail [p] of the pattern in the substituted line comes from
    a match in the line itself, provided no tail of [p] matches at an
    inserted [InnoDB]. *)
Lemma lit_ci_sub_back (p : text) :
  (forall pre q, p = pre ++ q -> q <> [] -> forall x, lit_ci q (InnoDB ++ x) = None) ->
  forall line r, lit_ci p (myisam_sub line) = Some r -> exists r', lit_ci p line = Some r'.
Proof.
  induction p as [|a p IH]; intros Hgood line r H.
  - now exists line.
  - destruct (lit_ci MyISAM line) as [rest|] eqn:E.
    + rewrite (myisam_sub_match _ _ E) in H.
      rewrite (Hgood [] (a :: p)) in H; [discriminate|reflexivity|discriminate].
    + destruct line as [|c line]; [discriminate|].
      rewrite (myisam_sub_keep _ _ E) in H. simpl in H |- *.
      destruct (ieq a c); [|discriminate].
      apply IH with r; [|exact H].
      intros pre q Hp. apply (Hgood (a :: pre) q). now subst.
Qed.

Lemma yISAM_clear pre q :
  str "yISAM" = pre ++ q -> q <> [] -> forall x, lit_ci q (InnoDB ++ x) = None.
Proof.
  intros H Hq x. change (str "yISAM") with [121; 73; 83; 65; 77] in H.
  do 5 (destruct pre as [|? pre]; simpl in H;
        [subst q; reflexivity | injection H as _ H]).
  destruct pre; simpl in H; [symmetry in H; contradiction | discriminate].
Qed.

Lemma myisam_search_InnoDB x : myisam_search (InnoDB ++ x) = myisam_search x.
Proof. reflexivity. Qed.

(** No occurrence of the source identifier is left after the substitution. *)
Lemma myisam_search_sub line : myisam_search (myisam_sub line) = false.
Proof.
  apply myisam_sub_ind with (P := fun _ out => myisam_search out = false).
  - reflexivity.
  - intros l rest _ IH. now rewrite myisam_search_InnoDB.
  - intros c l E IH. cbn [myisam_search]. rewrite IH.
    destruct (lit_ci MyISAM (c :: myisam_sub l)) as [r|] eqn:E'; [|reflexivity].
    exfalso. change (lit_ci MyISAM (c :: l)) with
      (if ieq 77 c then lit_ci (str "yISAM") l else None) in E.
    change (lit_ci MyISAM (c :: myisam_sub l)) with
      (if ieq 77 c then lit_ci (str "yISAM") (myisam_sub l) else None) in E'.
    destruct (ieq 77 c); [|discriminate].
    destruct (lit_ci_sub_back _ yISAM_clear _ _ E') as [r' Hr']. congruence.
Qed.

(** Without an occurrence the substitution changes nothing. *)
Lemma myisam_sub_id line : myisam_search line = false -> myisam_sub line = line.
Proof.
  induction line as [|c line IH]; intros H; [reflexivity|].
  cbn [myisam_search] in H.
  destruct (lit_ci MyISAM (c :: line)) eqn:E; [discriminate|].
  rewrite (myisam_sub_keep _ _ E). f_equal. now apply IH.
Qed.

(** ** The marker expressions *)

Lemma dot_star_complete {A} (k : text -> option A) (a s : text) :
  Forall not_newline a -> k s <> None -> dot_star (a ++ s) k <> None.
Proof.
  intros Ha Hk. induction Ha as [|c a Hc Ha IH]; simpl.
  - destruct s as [|c s]; simpl; [exact Hk|].
    destruct (c =? NL); [exact Hk|].
    destruct (dot_star s k); [discriminate | exact Hk].
  - rewrite Hc. destruct (dot_star (a ++ s) k); [discriminate | contradiction].
Qed.

Lemma dot_star_sound {A} (k : text -> option A) (s : text) (r : A) :
  dot_star s k = Some r ->
  exists a s', s = a ++ s' /\ Forall not_newline a /\ k s' = Some r.
Proof.
  induction s as [|c s IH]; simpl; intros H.
  - exists [], []. auto.
  - destruct (c =? NL) eqn:Hc.
    + exists [], (c :: s). auto.
    + destruct (dot_star s k) as [r'|].
      * destruct (IH H) as (a & s' & -> & Ha & Hk).
        exists (c :: a), s'. repeat split; [constructor; assumption | congruence].
      * exists [], (c :: s). auto.
Qed.

Lemma word_star_complete {A} (k : text -> text -> option A) (w s : text) :
  Forall word w -> forall acc,
  k (acc ++ w) s <> None -> word_star acc (w ++ s) k <> None.
Proof.
  intros Hw. induction Hw as [|c w Hc Hw IH]; intros acc Hk; simpl.
  - rewrite app_nil_r in Hk. destruct s as [|c s]; simpl; [exact Hk|].
    destruct (is_word c); [|exact Hk].
    destruct (word_star (acc ++ [c]) s k); [discriminate | exact Hk].
  - rewrite Hc. specialize (IH (acc ++ [c])). rewrite <- app_assoc in IH.
    specialize (IH Hk). destruct (word_star (acc ++ [c]) (w ++ s) k);
      [discriminate | congruence].
Qed.

Lemma word_star_sound {A} (k : text -> text -> option A) (s : text) (r : A) :
  forall acc, word_star acc s k = Some r ->
  exists w s', s = w ++ s' /\ Forall word w /\ k (acc ++ w) s' = Some r.
Proof.
  assert (Hstop : forall acc s, k acc s = Some r ->
            exists w s', s = w ++ s' /\ Forall word w /\ k (acc ++ w) s' = Some r).
  { intros acc s0 H. exists [], s0. now rewrite app_nil_r. }
  induction s as [|c s IH]; simpl; intros acc H.
  - now apply Hstop.
  - destruct (is_word c) eqn:Hc; [|now apply Hstop].
    destruct (word_star (acc ++ [c]) s k) as [r'|] eqn:E; [|now apply Hstop].
    injection H as ->.
    destruct (IH _ E) as (w & s' & -> & Hw & Hk).
    exists (c :: w), s'. rewrite <- app_assoc in Hk.
    split; [reflexivity | split; [constructor; assumption | exact Hk]].
Qed.

Lemma lit_ci_split (pat : text) : forall s r,
  lit_ci pat s = Some r -> exists p, s = p ++ r /\ lit_ci pat p = Some [].
Proof.
  induction pat as [|k pat IH]; intros s r H; simpl in *.
  - injection H as ->. exists []. split; reflexivity.
  - destruct s as [|c s]; [discriminate|].
    destruct (ieq k c) eqn:E; [|discriminate].
    destruct (IH _ _ H) as (p & -> & Hp). exists (c :: p). simpl. now rewrite E.
Qed.

Lemma lit_ci_app (pat : text) : forall s r x,
  lit_ci pat s = Some r -> lit_ci pat (s ++ x) = Some (r ++ x).
Proof.
  induction pat as [|k pat IH]; intros s r x H; simpl in *.
  - now injection H as ->.
  - destruct s as [|c s]; [discriminate|]. simpl.
    destruct (ieq k c); [now apply IH | discriminate].
Qed.

(** What a line that matches a marker expression looks like. *)
Lemma marker_re_sound kw line name :
  marker_re kw line = Some name ->
  exists p a b e,
    line = p ++ a ++ BACKTICK :: name ++ BACKTICK :: b ++ e /\
    lit_ci kw p = Some [] /\ Forall not_newline a /\
    name <> [] /\ Forall word name /\ Forall not_newline b /\ at_eol e = true.
Proof.
  unfold marker_re. intros H.
  destruct (lit_ci kw line) as [r0|] eqn:E0; [|discriminate].
  destruct (lit_ci_split _ _ _ E0) as (p & -> & Hp).
  apply dot_star_sound in H. destruct H as (a & r1 & -> & Ha & H).
  unfold lit1 in H. destruct r1 as [|c r2]; [discriminate|].
  destruct (c =? BACKTICK) eqn:Hc; [|discriminate]. apply N.eqb_eq in Hc. subst c.
  unfold word_plus in H. destruct r2 as [|c r2]; [discriminate|].
  destruct (is_word c) eqn:Hw; [|discriminate].
  apply word_star_sound in H. destruct H as (w & r3 & -> & Hws & H).
  destruct r3 as [|c' r4]; [discriminate|].
  destruct (c' =? BACKTICK) eqn:Hc'; [|discriminate]. apply N.eqb_eq in Hc'. subst c'.
  apply dot_star_sound in H. destruct H as (b & e & -> & Hb & H).
  destruct (at_eol e) eqn:He; [|discriminate]. inversion H; subst name.
  exists p, a, b, e. simpl.
  repeat split; auto; discriminate.
Qed.

Lemma marker_re_complete kw p a w b e :
  lit_ci kw p = Some [] -> Forall not_newline a ->
  w <> [] -> Forall word w -> Forall not_newline b -> at_eol e = true ->
  marker_re kw (p ++ a ++ BACKTICK :: w ++ BACKTICK :: b ++ e) <> None.
Proof.
  intros Hp Ha Hne Hw Hb He. unfold marker_re.
  rewrite (lit_ci_app _ _ _ _ Hp). simpl app.
  apply dot_star_complete; [exact Ha|]. cbn [lit1]. rewrite N.eqb_refl.
  destruct w as [|c w]; [contradiction|]. inversion Hw; subst.
  cbn [app word_plus]. match goal with H : word c |- _ => rewrite H end.
  apply word_star_complete; [assumption|]. cbn [lit1]. rewrite N.eqb_refl.
  apply dot_star_complete; [exact Hb|]. now rewrite He.
Qed.

(** ** Substitution inside a marker line *)

Lemma lit_ci_none_app (pat : text) (c : char) (y : text) :
  Forall (fun p => ieq p c = false) pat -> pat <> [] ->
  forall x, lit_ci pat x = None -> lit_ci pat (x ++ c :: y) = None.
Proof.
  induction 1 as [|p pat Hp Hpat IH]; intros Hne x H; [contradiction|].
  destruct x as [|c0 x]; simpl in *.
  - now rewrite Hp.
  - destruct (ieq p c0); [|reflexivity].
    destruct pat as [|p' pat]; [discriminate|]. apply IH; [discriminate | exact H].
Qed.

(** A character that no letter of the pattern matches splits the
    substitution in two. *)
Lemma myisam_sub_separator (c : char) (x y : text) :
  Forall (fun p => ieq p c = false) MyISAM ->
  myisam_sub (x ++ c :: y) = myisam_sub x ++ c :: myisam_sub y.
Proof.
  intros Hsep.
  apply myisam_sub_ind with
    (P := fun x out => myisam_sub (x ++ c :: y) = out ++ c :: myisam_sub y).
  - simpl. apply myisam_sub_keep.
    apply (lit_ci_none_app MyISAM c y Hsep) with (x := []); [discriminate|reflexivity].
  - intros l rest E IH.
    rewrite (myisam_sub_match _ _ (lit_ci_app _ _ _ (c :: y) E)), IH.
    now rewrite app_assoc.
  - intros c0 l E IH. simpl.
    rewrite myisam_sub_keep, IH; [reflexivity|].
    apply (lit_ci_none_app MyISAM c y Hsep) with (x := c0 :: l); [discriminate|exact E].
Qed.

(** Characters that do not match the first letter of the pattern are
    copied. *)
Lemma myisam_sub_prefix (p x : text) :
  Forall (fun c => ieq 77 c = false) p ->
  myisam_sub (p ++ x) = p ++ myisam_sub x.
Proof.
  induction 1 as [|c p Hc Hp IH]; [reflexivity|]. simpl.
  rewrite myisam_sub_keep, IH; [reflexivity|].
  change (lit_ci MyISAM (c :: p ++ x)) with
    (if ieq 77 c then lit_ci (str "yISAM") (p ++ x) else None).
  now rewrite Hc.
Qed.

Lemma Forall_drop {X} (P : X -> Prop) : forall k l, Forall P l -> Forall P (skipn k l).
Proof.
  induction k as [|k IH]; intros l Hl; [exact Hl|].
  destruct Hl; simpl; [constructor | now apply IH].
Qed.

(** The substitution keeps a property that the characters of the line and
    the characters of [InnoDB] have. *)
Lemma myisam_sub_Forall (P : char -> Prop) :
  Forall P InnoDB -> forall line, Forall P line -> Forall P (myisam_sub line).
Proof.
  intros HI line.
  apply myisam_sub_ind with (P := fun l out => Forall P l -> Forall P out).
  - auto.
  - intros l rest E IH Hl. apply Forall_app. split; [exact HI|]. apply IH.
    rewrite (lit_ci_skipn _ _ _ E). now apply Forall_drop.
  - intros c l _ IH Hl. inversion Hl; subst. constructor; auto.
Qed.

Lemma myisam_sub_not_nil line : line <> [] -> myisam_sub line <> [].
Proof.
  intros Hne. destruct (lit_ci MyISAM line) as [rest|] eqn:E.
  - rewrite (myisam_sub_match _ _ E). discriminate.
  - destruct line as [|c line]; [contradiction|].
    rewrite (myisam_sub_keep _ _ E). discriminate.
Qed.

(** What matches a keyword without the letter [m] cannot start an
    occurrence of the pattern. *)
Lemma lit_ci_no_m (kw : text) :
  Forall (fun k => (fold k =? fold 77) = false) kw ->
  forall p, lit_ci kw p = Some [] -> Forall (fun c => ieq 77 c = false) p.
Proof.
  induction 1 as [|k kw Hk Hkw IH]; intros p H; simpl in H.
  - injection H as ->. constructor.
  - destruct p as [|c p]; [discriminate|].
    destruct (ieq k c) eqn:E; [|discriminate].
    constructor; [|now apply IH].
    unfold ieq in *. apply N.eqb_eq in E. now rewrite E.
Qed.

Lemma at_eol_sub (b e : text) :
  at_eol e = true -> myisam_sub (b ++ e) = myisam_sub b ++ e.
Proof.
  intros He. destruct e as [|c [|c' e]]; try discriminate.
  - now rewrite !app_nil_r.
  - simpl in He. apply N.eqb_eq in He. subst c.
    rewrite myisam_sub_separator; [reflexivity|]. repeat constructor.
Qed.

(** A marker line is still a marker line after the substitution. *)
Lemma marker_re_sub (kw line name : text) :
  Forall (fun k => (fold k =? fold 77) = false) kw ->
  marker_re kw line = Some name ->
  exists name', marker_re kw (myisam_sub line) = Some name'.
Proof.
  intros Hkw H.
  destruct (marker_re_sound _ _ _ H) as (p & a & b & e & -> & Hp & Ha & Hne & Hw & Hb & He).
  rewrite (myisam_sub_prefix p _ (lit_ci_no_m kw Hkw p Hp)).
  rewrite myisam_sub_separator by (repeat constructor).
  rewrite myisam_sub_separator by (repeat constructor).
  rewrite (at_eol_sub _ _ He).
  assert (Hnl : Forall not_newline InnoDB) by (repeat constructor).
  assert (Hwd : Forall word InnoDB) by (repeat constructor).
  pose proof (marker_re_complete kw p (myisam_sub a) (myisam_sub name) (myisam_sub b) e
                Hp (myisam_sub_Forall _ Hnl _ Ha) (myisam_sub_not_nil _ Hne)
                (myisam_sub_Forall _ Hwd _ Hw) (myisam_sub_Forall _ Hnl _ Hb) He) as Hc.
  destruct (marker_re kw (p ++ myisam_sub a ++ _)) as [name'|];
    [now exists name' | contradiction].
Qed.

(** ** Statements about the run *)

Lemma lit_ci_pat_app (p q : text) : forall s,
  lit_ci (p ++ q) s = match lit_ci p s with Some r => lit_ci q r | None => None end.
Proof.
  induction p as [|k p IH]; intros s; simpl; [reflexivity|].
  destruct s as [|c s]; [reflexivity|]. destruct (ieq k c); [apply IH | reflexivity].
Qed.

(** No line is both a table marker and a schema marker. *)
Lemma table_not_database line : table_re line <> None -> database_re line = None.
Proof.
  unfold table_re, database_re, marker_re. intros Ht.
  change (str "CREATE TABLE") with (str "CREATE " ++ str "TABLE") in Ht.
  change (str "CREATE DATABASE") with (str "CREATE " ++ str "DATABASE").
  rewrite lit_ci_pat_app in *.
  destruct (lit_ci (str "CREATE ") line) as [r|]; [|reflexivity].
  destruct r as [|c r]; [reflexivity|].
  change (lit_ci (str "TABLE") (c :: r)) with
    (if ieq 84 c then lit_ci (str "ABLE") r else None) in Ht.
  change (lit_ci (str "DATABASE") (c :: r)) with
    (if ieq 68 c then lit_ci (str "ATABASE") r else None).
  unfold ieq in *. destruct (fold c =? fold 84) eqn:E1; [|contradiction].
  apply N.eqb_eq in E1. rewrite E1. reflexivity.
Qed.

Lemma body_log i line s :
  Forall (fun e => is_summary e = false) (log s) ->
  Forall (fun e => is_summary e = false) (log (final (body excluded i line s))).
Proof.
  intros H. unfold_body. break_match; simpl;
    repeat match goal with
           | E : Returned _ = Returned _ |- _ => inversion E; subst; clear E
           | E : Raised _ _ = Raised _ _ |- _ => inversion E; subst; clear E
           | E : Returned _ = Raised _ _ |- _ => discriminate E
           | E : Raised _ _ = Returned _ |- _ => discriminate E
           end; simpl;
    rewrite ?Forall_app; repeat split; auto.
Qed.

Lemma for_loop_log (infile : list text) : forall i s,
  Forall (fun e => is_summary e = false) (log s) ->
  Forall (fun e => is_summary e = false) (log (final (for_loop excluded i infile s))).
Proof.
  induction infile as [|line rest IH]; intros i s H; simpl; [exact H|].
  pose proof (body_log i line s H) as Hb.
  destruct (body excluded i line s) as [s'|e s']; simpl in *; auto.
Qed.

(** Lines without a marker, met while [isexcluded] holds, are all written
    as they are. *)
Lemma preamble_loop (pre : list text) : forall i s,
  Forall no_marker pre -> isexcluded s = true ->
  exists s', for_loop excluded i pre s = Returned s' /\
             outfile s' = outfile s ++ pre /\
             preserved s' = (preserved s + List.length pre)%nat /\
             changed s' = changed s /\ isexcluded s' = true /\
             database s' = database s /\ table s' = table s.
Proof.
  induction pre as [|line pre IH]; intros i s Hpre Hex; simpl.
  - exists s. rewrite app_nil_r, Nat.add_0_r. auto 10.
  - inversion Hpre as [|? ? [Hd Ht] Hrest]; subst.
    assert (Hn : next_isexcluded excluded line s = true)
      by (unfold next_isexcluded; now rewrite Hd, Ht).
    destruct (body_preserved i line s) as (s1 & -> & Ho & Hc & Hp & Hdb & Htb & Hx & _).
    { rewrite Ht. intros H. now contradiction H. }
    { now left. }
    simpl. destruct (IH (S i) s1 Hrest) as (s' & -> & Ho' & Hp' & Hc' & Hx' & Hdb' & Htb').
    { congruence. }
    exists s'. rewrite Ho', Ho, Hp', Hp, Hc', Hc, Hdb', Hdb, Htb', Htb, <- app_assoc.
    unfold next_database, next_table. rewrite Hd, Ht.
    repeat split; auto; simpl; lia.
Qed.

(** When the loop over a non-empty input ends, [n] is the index of the last
    line and the run ends with the final report. *)
Lemma full_run (infile : list text) (s : locals) :
  infile <> [] ->
  for_loop excluded 0 infile initial = Returned s ->
  n s = Some (List.length infile - 1)%nat /\
  ProcessFiles excluded infile =
  Returned (logging_info
              (Summary (List.length infile - 1 + 1) (changed s) (preserved s)) s).
Proof.
  intros Hne Hl.
  destruct (for_loop_counts _ _ _ _ Hl) as [_ Hn]. specialize (Hn Hne).
  simpl in Hn. split; [exact Hn|].
  unfold ProcessFiles. rewrite Hl. simpl. unfold summary. now rewrite Hn.
Qed.

(** While [database] is [None], the first table marker ends the loop. *)
Lemma first_table_marker (infile : list text) : forall i s,
  database s = None -> isexcluded s = true ->
  Forall (fun l => database_re l = None) infile ->
  Exists (fun l => table_re l <> None) infile ->
  exists s' k, for_loop excluded i infile s = Raised AttributeError s' /\
               outfile s' = outfile s ++ firstn k infile /\
               Forall no_marker (firstn k infile) /\
               (k < List.length infile)%nat.
Proof.
  induction infile as [|l rest IH]; intros i s Hd Hx Hnone Hex.
  - inversion Hex.
  - inversion Hnone as [|? ? Hl Hrest]; subst. simpl.
    destruct (table_re l) as [t|] eqn:Et.
    + destruct (body_AttributeError i l s) as (s' & -> & Ho & _).
      { rewrite Et. discriminate. }
      { unfold next_database. now rewrite Hl. }
      exists s', 0%nat. simpl. rewrite app_nil_r. repeat split; auto. lia.
    + destruct (body_preserved i l s) as (s1 & -> & Ho & _ & _ & Hdb & _ & Hx1 & _).
      { rewrite Et. intros H. now contradiction H. }
      { left. unfold next_isexcluded. now rewrite Hl, Et. }
      simpl. inversion Hex as [? ? H|? ? H]; subst; [now contradiction H|].
      destruct (IH (S i) s1) as (s' & k & -> & Ho' & Hpre & Hk); auto.
      { rewrite Hdb. unfold next_database. now rewrite Hl. }
      { rewrite Hx1. unfold next_isexcluded. now rewrite Hl, Et. }
      exists s', (S k). simpl. rewrite Ho', Ho, <- app_assoc.
      repeat split; auto; [|lia]. constructor; [now split | exact Hpre].
Qed.

(** C8. Before the first schema marker, and before any table marker, the
    exclusion flag has its initial value, true: every line of such a preamble
    [pre] of the input [pre ++ post] is written unchanged and counted as
    preserved, whether or not it holds the engine token, and the run goes on
    with the rest from there. *)
Theorem preamble_preserved (pre post : list text) :
  Forall no_marker pre ->
  isexcluded initial = true /\
  exists s, for_loop excluded 0 pre initial = Returned s /\
            outfile s = pre /\ preserved s = List.length pre /\
            changed s = 0%nat /\ isexcluded s = true /\
            ProcessFiles excluded (pre ++ post) =
            andthen (for_loop excluded (List.length pre) post s) summary.
Proof.
  intros Hpre. split; [reflexivity|].
  destruct (preamble_loop pre 0 initial Hpre eq_refl)
    as (s & Hl & Ho & Hp & Hc & Hx & _ & _).
  exists s. repeat split; auto.
  unfold ProcessFiles. now rewrite for_loop_app, Hl.
Qed.

(** The loop raises [AttributeError] only at a table marker met while
    [database] is [None], none of the lines before it being a schema
    marker. *)
Lemma for_loop_AttributeError (infile : list text) : forall i s s',
  for_loop excluded i infile s = Raised AttributeError s' ->
  database s = None /\
  exists pre line post, infile = pre ++ line :: post /\
    Forall (fun l => database_re l = None) pre /\ table_re line <> None.
Proof.
  induction infile as [|l rest IH]; intros i s s' H; simpl in H; [discriminate|].
  pose proof (body_inv i l s) as Hb.
  destruct (body excluded i l s) as [s1|e s1]; simpl in H.
  - destruct Hb as (_ & _ & _ & Hd & _).
    destruct (IH _ _ _ H) as (Hnone & pre & line & post & -> & Hpre & Ht).
    rewrite Hd in Hnone. unfold next_database in Hnone.
    destruct (database_re l) eqn:El; [discriminate|]. split; [exact Hnone|].
    exists (l :: pre), line, post. repeat split; auto.
  - injection H as -> ->. destruct Hb as (_ & _ & _ & [(_ & Ht & Hd) | (He & _)]);
      [|discriminate].
    unfold next_database in Hd. destruct (database_re l) eqn:El; [discriminate|].
    split; [exact Hd|]. exists [], l, rest. repeat split; auto.
Qed.

(** C9. Processing a table marker while no schema marker has been seen
    ([database] is [None]) raises [AttributeError], from [database.upper()],
    and writes nothing.  So an input in which a table marker [line] comes
    before any schema marker makes the run fail with that error, the output
    holding only lines from before a table marker.  In an input where a
    schema marker comes before every table marker the error is never
    raised. *)
Theorem table_marker_before_schema_marker :
  (forall i line s, database s = None -> table_re line <> None ->
     exists s', body excluded i line s = Raised AttributeError s' /\
                outfile s' = outfile s) /\
  (forall pre line post,
     Forall (fun l => database_re l = None) pre -> table_re line <> None ->
     exists s k, ProcessFiles excluded (pre ++ line :: post) = Raised AttributeError s /\
                 outfile s = firstn k pre /\ Forall no_marker (firstn k pre)) /\
  (forall infile,
     (forall pre line post, infile = pre ++ line :: post -> table_re line <> None ->
        Exists (fun l => database_re l <> None) pre) ->
     forall s, ProcessFiles excluded infile <> Raised AttributeError s).
Proof.
  split; [|split].
  - intros i line s Hd Ht.
    destruct (body_AttributeError i line s Ht) as (s' & Hb & Ho & _).
    { unfold next_database. now rewrite (table_not_database _ Ht), Hd. }
    now exists s'.
  - intros pre line post Hpre Ht.
    destruct (first_table_marker (pre ++ [line]) 0 initial eq_refl eq_refl)
      as (s & k & Hl & Ho & Hno & Hk).
    { apply Forall_app. split; [exact Hpre|].
      constructor; [now apply table_not_database | constructor]. }
    { apply Exists_app. right. now constructor. }
    rewrite length_app in Hk. simpl in Hk.
    rewrite firstn_app in Ho, Hno.
    replace (k - List.length pre)%nat with 0%nat in * by lia.
    simpl in Ho, Hno. rewrite app_nil_r in Ho, Hno.
    exists s, k. unfold ProcessFiles.
    change (pre ++ line :: post) with (pre ++ [line] ++ post).
    rewrite app_assoc, for_loop_app, Hl. simpl. auto.
  - intros infile Hpre s H. unfold ProcessFiles in H.
    destruct (for_loop excluded 0 infile initial) as [s1|e s1] eqn:El; simpl in H.
    + unfold summary in H. destruct (n s1); discriminate.
    + injection H as -> ->. apply for_loop_AttributeError in El.
      destruct El as (_ & pre & line & post & -> & Hnone & Ht).
      specialize (Hpre pre line post eq_refl Ht).
      apply Exists_exists in Hpre. destruct Hpre as (l & Hin & Hl).
      rewrite Forall_forall in Hnone. now apply Hl, Hnone.
Qed.

(** C10. On an empty input the run fails when it computes the final
    summary, [n] never having been bound.  The summary is therefore logged
    for a non-empty input only, and it then states [n + 1] lines read, [n]
    being the index of the last line; it is logged whenever the loop over
    a non-empty input ends. *)
Theorem summary_needs_a_line :
  ProcessFiles excluded [] = Raised (UnboundLocalError "n") initial /\
  (forall infile r c p,
     In (Summary r c p) (log (final (ProcessFiles excluded infile))) ->
     infile <> [] /\ r = (List.length infile - 1 + 1)%nat) /\
  (forall infile s, infile <> [] ->
     for_loop excluded 0 infile initial = Returned s ->
     n s = Some (List.length infile - 1)%nat /\
     ProcessFiles excluded infile =
     Returned (logging_info
                 (Summary (List.length infile - 1 + 1) (changed s) (preserved s)) s)).
Proof.
  split; [reflexivity|]. split.
  - intros infile r c p Hin. unfold ProcessFiles in Hin.
    pose proof (for_loop_log infile 0 initial (Forall_nil _)) as Hlog.
    destruct (for_loop excluded 0 infile initial) as [s|e s] eqn:El; simpl in *.
    + unfold summary in Hin. destruct (n s) as [k|] eqn:En; simpl in Hin.
      * apply in_app_or in Hin. destruct Hin as [Hin|[Heq|[]]].
        { rewrite Forall_forall in Hlog. apply Hlog in Hin. discriminate. }
        injection Heq as <- _ _.
        destruct infile as [|l rest].
        { simpl in El. injection El as <-. discriminate. }
        split; [discriminate|].
        destruct (for_loop_counts _ _ _ _ El) as [_ Hn].
        rewrite Hn in En by discriminate. injection En as <-. reflexivity.
      * rewrite Forall_forall in Hlog. apply Hlog in Hin. discriminate.
    + rewrite Forall_forall in Hlog. apply Hlog in Hin. discriminate.
  - intros infile s. apply full_run.
Qed.

(** C1. When the loop has gone through the first [k] lines of the input,
    [changed + preserved] is [k]: each iteration increments exactly one of
    the two counters.  After a full run over the [N] lines of a non-empty
    input the final report states [N] lines read and the two counters, whose
    sum is [N]. *)
Theorem counters_add_up (infile : list text) (k : nat) (s : locals) :
  (k <= List.length infile)%nat ->
  for_loop excluded 0 (firstn k infile) initial = Returned s ->
  (changed s + preserved s = k)%nat /\
  (forall line s', nth_error infile k = Some line ->
     body excluded k line s = Returned s' ->
     (changed s' = S (changed s) /\ preserved s' = preserved s) \/
     (changed s' = changed s /\ preserved s' = S (preserved s))) /\
  (k = List.length infile -> infile <> [] ->
   ProcessFiles excluded infile =
   Returned (logging_info (Summary (List.length infile) (changed s) (preserved s)) s)).
Proof.
  intros Hk Hl. split; [|split].
  - destruct (for_loop_counts _ _ _ _ Hl) as [Hsum _].
    rewrite length_firstn in Hsum. simpl in Hsum. lia.
  - intros line s' _ Hb. now apply body_counts in Hb.
  - intros -> Hne. rewrite firstn_all in Hl.
    destruct (full_run infile s Hne Hl) as [_ ->].
    replace (List.length infile - 1 + 1)%nat with (List.length infile); [reflexivity|].
    destruct infile; [contradiction | simpl; lia].
Qed.

(** ** An excluded schema *)

Lemma text_eqb_refl (a : text) : text_eqb a a = true.
Proof. induction a as [|c a IH]; simpl; [reflexivity|]. now rewrite N.eqb_refl. Qed.

Lemma mem_In (x : text) (l : list text) : In x l -> mem x l = true.
Proof.
  intros H. unfold mem. apply existsb_exists. exists x. split; [exact H|].
  apply text_eqb_refl.
Qed.

(** While the current schema is excluded, lines that are not schema markers
    are all written as they are. *)
Lemma excluded_scope (scope : list text) : forall i s,
  database s <> None -> consistent excluded s -> isexcluded s = true ->
  Forall (fun l => database_re l = None) scope ->
  exists s', for_loop excluded i scope s = Returned s' /\
             outfile s' = outfile s ++ scope /\
             preserved s' = (preserved s + List.length scope)%nat /\
             changed s' = changed s.
Proof.
  induction scope as [|l scope IH]; intros i s Hdb Hcon Hex Hscope; simpl.
  - exists s. rewrite app_nil_r, Nat.add_0_r. auto.
  - inversion Hscope as [|? ? Hl Hrest]; subst.
    assert (Hnd : next_database l s = database s)
      by (unfold next_database; now rewrite Hl).
    assert (Hnx : next_isexcluded excluded l s = true)
      by (rewrite (next_isexcluded_consistent _ _ Hcon), Hnd, <- Hcon; exact Hex).
    destruct (body_preserved i l s) as (s1 & -> & Ho & Hc & Hp & Hd1 & _ & Hx1 & _).
    { now rewrite Hnd. }
    { now left. }
    simpl. destruct (IH (S i) s1) as (s' & -> & Ho' & Hp' & Hc'); auto.
    { now rewrite Hd1, Hnd. }
    { unfold consistent. now rewrite Hx1, Hd1, Hnx, Hnd, <- Hcon. }
    { now rewrite Hx1. }
    exists s'. rewrite Ho', Ho, Hp', Hp, Hc', Hc, <- app_assoc.
    repeat split; auto; simpl; lia.
Qed.

(** From the marker line of an excluded schema to the next schema marker. *)
Lemma excluded_schema (i : nat) (line name : text) (scope : list text) (s : locals) :
  database_re line = Some name -> mem (upper name) excluded = true ->
  Forall (fun l => database_re l = None) scope ->
  exists s', for_loop excluded i (line :: scope) s = Returned s' /\
             outfile s' = outfile s ++ line :: scope /\
             preserved s' = (preserved s + List.length (line :: scope))%nat /\
             changed s' = changed s.
Proof.
  intros Hl Hmem Hscope. simpl.
  assert (Hnd : next_database line s = Some name)
    by (unfold next_database; now rewrite Hl).
  assert (Hnx : next_isexcluded excluded line s = true).
  { unfold next_isexcluded. rewrite Hnd, Hl. simpl. now destruct (table_re line). }
  destruct (body_preserved i line s) as (s1 & -> & Ho & Hc & Hp & Hd1 & _ & Hx1 & _).
  { rewrite Hnd. discriminate. }
  { now left. }
  simpl. destruct (excluded_scope scope (S i) s1) as (s' & -> & Ho' & Hp' & Hc'); auto.
  { rewrite Hd1, Hnd. discriminate. }
  { unfold consistent. now rewrite Hx1, Hd1, Hnx, Hnd. }
  { now rewrite Hx1. }
  exists s'. rewrite Ho', Ho, Hp', Hp, Hc', Hc, <- app_assoc.
  repeat split; auto; simpl; lia.
Qed.

(** ** A second run on the output of the first *)

Lemma consistent_next (l : text) (s s' : locals) :
  consistent excluded s ->
  isexcluded s' = next_isexcluded excluded l s ->
  database s' = next_database l s ->
  consistent excluded s'.
Proof.
  intros Hc Hx Hd. unfold consistent.
  now rewrite Hx, Hd, (next_isexcluded_consistent _ _ Hc).
Qed.

Lemma written_search_false (l : text) (s : locals) :
  next_isexcluded excluded l s = false ->
  myisam_search (written excluded l s) = false.
Proof.
  intros Ex. unfold written. rewrite Ex. simpl.
  destruct (myisam_search l) eqn:Hs; [apply myisam_search_sub | exact Hs].
Qed.

Lemma written_database_re (l d : text) (s : locals) :
  database_re l = Some d -> database_re (written excluded l s) <> None.
Proof.
  intros Hl. unfold written.
  destruct (negb (next_isexcluded excluded l s) && myisam_search l).
  - destruct (marker_re_sub (str "CREATE DATABASE") l d) as [d' Hd'];
      [repeat constructor | exact Hl |].
    unfold database_re. rewrite Hd'. discriminate.
  - rewrite Hl. discriminate.
Qed.

(** The second run writes the line the first run wrote, as it is. *)
Lemma twin_step (i j : nat) (l : text) (s1 s2 s1' : locals) :
  twin excluded s1 s2 ->
  body excluded i l s1 = Returned s1' ->
  exists s2', body excluded j (written excluded l s1) s2 = Returned s2' /\
              outfile s2' = outfile s2 ++ [written excluded l s1] /\
              changed s2' = changed s2 /\
              twin excluded s1' s2'.
Proof.
  intros (C1 & C2 & Hsame & Hseen) Hb.
  pose proof (body_inv i l s1) as H. rewrite Hb in H.
  destruct H as (Hd & _ & _ & Hdb & _ & Hx & _).
  pose proof (next_isexcluded_consistent l s1 C1) as Hx1.
  pose proof (consistent_next l s1 s1' C1 Hx Hdb) as C1'.
  destruct (next_isexcluded excluded l s1) eqn:Ex.
  - (* the first run excludes: the line is the same, and so is the schema *)
    assert (Ho : written excluded l s1 = l) by (unfold written; now rewrite Ex).
    rewrite Ho.
    assert (Hnd : next_database l s2 = next_database l s1).
    { unfold next_database in *. destruct (database_re l); [reflexivity|].
      apply Hsame. now rewrite C1, <- Hx1. }
    pose proof (next_isexcluded_consistent l s2 C2) as Hx2. rewrite Hnd, <- Hx1 in Hx2.
    destruct (body_preserved j l s2) as (s2' & Hb2 & Ho2 & Hc2 & _ & Hd2 & _ & Hx2' & _).
    { now rewrite Hnd. }
    { now left. }
    exists s2'. repeat split; auto.
    + apply (consistent_next l s2); auto.
    + intros _. now rewrite Hd2, Hnd, Hdb.
    + now rewrite Hd2, Hnd, Hdb.
  - (* the first run converts: no occurrence is left for the second *)
    assert (Hnd : next_database (written excluded l s1) s2 <> None).
    { unfold next_database.
      destruct (database_re (written excluded l s1)) eqn:Eo; [discriminate|].
      destruct (database s1) as [d|] eqn:Ed1; [apply Hseen; discriminate|].
      exfalso. unfold flag_of, next_database in Hx1. rewrite Ed1 in Hx1.
      destruct (database_re l) as [d|] eqn:El; [|discriminate].
      now apply (written_database_re l d s1 El). }
    destruct (body_preserved j (written excluded l s1) s2)
      as (s2' & Hb2 & Ho2 & Hc2 & _ & Hd2 & _ & Hx2' & _).
    { intros _. exact Hnd. }
    { right. now apply written_search_false. }
    exists s2'. repeat split; auto.
    + apply (consistent_next (written excluded l s1) s2); auto.
    + rewrite Hx. discriminate.
    + intros _. now rewrite Hd2.
Qed.

Lemma twin_loop (infile : list text) : forall i j s1 s2,
  twin excluded s1 s2 ->
  exists ws s2',
    outfile (final (for_loop excluded i infile s1)) = outfile s1 ++ ws /\
    (returned (for_loop excluded i infile s1) = true ->
     List.length ws = List.length infile) /\
    for_loop excluded j ws s2 = Returned s2' /\
    outfile s2' = outfile s2 ++ ws /\ changed s2' = changed s2.
Proof.
  induction infile as [|l rest IH]; intros i j s1 s2 Htw; simpl.
  - exists [], s2. rewrite !app_nil_r. auto.
  - pose proof (body_inv i l s1) as Hinv.
    destruct (body excluded i l s1) as [s1'|e s1'] eqn:Hb; simpl.
    + destruct Hinv as (_ & _ & Ho & _).
      destruct (twin_step i j l s1 s2 s1' Htw Hb) as (s2' & Hb2 & Ho2 & Hc2 & Htw').
      destruct (IH (S i) (S j) s1' s2' Htw') as (ws & s2'' & Hw & Hlen & Hl2 & Ho2' & Hc2').
      exists (written excluded l s1 :: ws), s2''. simpl. rewrite Hb2. simpl.
      rewrite Hw, Ho, Ho2', Ho2, Hc2', Hc2, <- !app_assoc.
      repeat split; auto.
    + destruct Hinv as (Ho & _).
      exists [], s2. rewrite !app_nil_r. repeat split; auto. discriminate.
Qed.

Lemma ProcessFiles_final (infile : list text) :
  let r := for_loop excluded 0 infile initial in
  outfile (final (ProcessFiles excluded infile)) = outfile (final r) /\
  changed (final (ProcessFiles excluded infile)) = changed (final r) /\
  returned (ProcessFiles excluded infile) =
  returned r && match n (final r) with Some _ => true | None => false end.
Proof.
  unfold ProcessFiles. destruct (for_loop excluded 0 infile initial) as [s|e s];
    simpl; [|auto].
  unfold summary. destruct (n s); simpl; auto.
Qed.

Lemma twin_initial : twin excluded initial initial.
Proof. repeat split; auto. Qed.

Lemma second_run_changes_nothing_lines (infile : list text) :
  let first := ProcessFiles excluded infile in
  let second := ProcessFiles excluded (outfile (final first)) in
  outfile (final second) = outfile (final first) /\
  changed (final second) = 0%nat /\
  (returned first = true -> returned second = true).
Proof.
  cbv zeta.
  destruct (ProcessFiles_final infile) as (-> & _ & Hr1).
  destruct (twin_loop infile 0 0 initial initial twin_initial)
    as (ws & s2 & Hw & Hlen & Hl2 & Ho2 & Hc2).
  simpl in Hw, Ho2, Hc2. rewrite Hw.
  destruct (ProcessFiles_final ws) as (-> & -> & ->).
  rewrite Hl2. simpl. repeat split; auto.
  rewrite Hr1. intros H. apply andb_prop in H. destruct H as [Hret Hn].
  specialize (Hlen Hret).
  destruct ws as [|w ws].
  - destruct infile; [|discriminate]. simpl in Hn. discriminate.
  - destruct (for_loop_counts _ _ _ _ Hl2) as [_ Hn2].
    now rewrite Hn2 by discriminate.
Qed.

(** ** Line by line *)

(** Where [table] is bound, a line of a schema that is not excluded which
    holds the engine token is written with every occurrence replaced, in
    the sense of the specification, and none is left. *)
Lemma engine_line_converted (i : nat) (l t : text) (s : locals) :
  next_isexcluded excluded l s = false -> myisam_search l = true ->
  next_table l s = Some t ->
  exists s', body excluded i l s = Returned s' /\
             outfile s' = outfile s ++ [myisam_sub l] /\
             changed s' = S (changed s) /\ preserved s' = preserved s /\
             Replaced l (myisam_sub l) /\
             myisam_search (myisam_sub l) = false.
Proof.
  intros Ex Hs Ht. pose proof (body_changed i l s Ex Hs) as H. rewrite Ht in H.
  destruct H as (s' & Hb & Ho & Hc & Hp & _). exists s'.
  repeat split; auto; [apply myisam_sub_Replaced | apply myisam_search_sub].
Qed.

(** The lines written correspond, one to one and in order, to the first
    lines of the input: each is the input line or its substitution.  A loop
    that ends without an error has written one line for every input line. *)
Lemma for_loop_positional (infile : list text) : forall i s,
  exists pre post ws,
    infile = pre ++ post /\
    outfile (final (for_loop excluded i infile s)) = outfile s ++ ws /\
    Forall2 (fun l o => o = l \/ o = myisam_sub l) pre ws /\
    (returned (for_loop excluded i infile s) = true -> post = []).
Proof.
  induction infile as [|l rest IH]; intros i s; simpl.
  - exists [], [], []. split; [reflexivity|]. split; [now rewrite app_nil_r|].
    split; [constructor | reflexivity].
  - pose proof (body_inv i l s) as Hinv.
    destruct (body excluded i l s) as [s'|e s']; simpl.
    + destruct Hinv as (_ & _ & Ho & _).
      destruct (IH (S i) s') as (pre & post & ws & -> & Hw & Hall & Hret).
      exists (l :: pre), post, (written excluded l s :: ws).
      rewrite Hw, Ho, <- app_assoc. repeat split; auto.
      constructor; [|exact Hall]. unfold written.
      destruct (negb (next_isexcluded excluded l s) && myisam_search l); auto.
    + destruct Hinv as (Ho & _).
      exists [], (l :: rest), []. split; [reflexivity|].
      split; [now rewrite Ho, app_nil_r|]. split; [constructor | discriminate].
Qed.

Lemma ProcessFiles_positional (infile : list text) :
  exists pre post,
    infile = pre ++ post /\
    Forall2 (fun l o => o = l \/ o = myisam_sub l) pre
            (outfile (final (ProcessFiles excluded infile))) /\
    (returned (ProcessFiles excluded infile) = true -> post = []).
Proof.
  destruct (for_loop_positional infile 0 initial) as (pre & post & ws & E & Hw & Hall & Hret).
  destruct (ProcessFiles_final infile) as (Ho & _ & Hr).
  exists pre, post. rewrite Ho, Hw, Hr. simpl. repeat split; auto.
  intros H. apply andb_prop in H. now apply Hret.
Qed.

(** ** From file to file *)

Lemma universal_newlines_no_CR (m : nat) : forall s,
  (List.length s <= m)%nat -> Forall (fun c => (c =? 13) = false) (universal_newlines s).
Proof.
  induction m as [|m IH]; intros s Hm.
  - destruct s; [constructor | simpl in Hm; lia].
  - destruct s as [|c s]; [constructor|]. simpl in Hm. cbn [universal_newlines].
    destruct (c =? 13) eqn:Ec.
    + destruct s as [|d s]; [repeat constructor|]. simpl in Hm.
      destruct (d =? NL); (constructor; [reflexivity|]); apply IH; simpl; lia.
    + constructor; [exact Ec|]. apply IH. lia.
Qed.

Lemma lines_from_file_lines (s : text) : forall cur,
  Forall inline cur -> Forall (fun c => (c =? 13) = false) s ->
  file_lines (lines_from cur s).
Proof.
  induction s as [|c s IH]; intros cur Hcur Hs; simpl.
  - destruct cur; [constructor|]. constructor; [discriminate | exact Hcur].
  - inversion Hs; subst. destruct (c =? NL) eqn:Ec.
    + apply N.eqb_eq in Ec. subst c. constructor; [exact Hcur|].
      apply IH; [constructor | assumption].
    + apply IH; [|assumption]. apply Forall_app. split; [exact Hcur|].
      repeat constructor; assumption.
Qed.

Lemma readlines_file_lines (content : text) : file_lines (readlines content).
Proof.
  apply lines_from_file_lines; [constructor|].
  now apply (universal_newlines_no_CR (List.length content)).
Qed.

Lemma universal_newlines_id (s : text) :
  Forall (fun c => (c =? 13) = false) s -> universal_newlines s = s.
Proof.
  induction 1 as [|c s Hc Hs IH]; [reflexivity|]. simpl. now rewrite Hc, IH.
Qed.

Lemma lines_from_inline (b : text) : forall cur rest,
  Forall inline b ->
  lines_from cur (b ++ NL :: rest) = (cur ++ b ++ [NL]) :: lines_from [] rest.
Proof.
  induction b as [|c b IH]; intros cur rest Hb; simpl.
  - reflexivity.
  - inversion Hb as [|? ? [Hnl _] Hb']; subst. rewrite Hnl, IH by assumption.
    now rewrite <- app_assoc.
Qed.

Lemma lines_from_last (l : text) : forall cur,
  Forall inline l -> cur ++ l <> [] -> lines_from cur l = [cur ++ l].
Proof.
  induction l as [|c l IH]; intros cur Hl Hne; simpl.
  - rewrite app_nil_r in *. destruct cur; [contradiction | reflexivity].
  - inversion Hl as [|? ? [Hnl _] Hl']; subst. rewrite Hnl, IH; auto.
    + now rewrite <- app_assoc.
    + intros H. apply app_eq_nil in H. destruct H as [H _].
      apply app_eq_nil in H. destruct H as [_ H]. discriminate.
Qed.

Lemma file_lines_no_CR (ls : list text) :
  file_lines ls -> Forall (fun c => (c =? 13) = false) (List.concat ls).
Proof.
  induction 1 as [|l Hne Hl|b ls Hb Hls IH]; simpl.
  - constructor.
  - rewrite app_nil_r. eapply Forall_impl; [|exact Hl]. now intros c [_ H].
  - rewrite <- app_assoc. apply Forall_app. split.
    + eapply Forall_impl; [|exact Hb]. now intros c [_ H].
    + constructor; [reflexivity | exact IH].
Qed.

(** Reading back what was written line by line gives the lines written. *)
Lemma readlines_concat (ls : list text) :
  file_lines ls -> readlines (List.concat ls) = ls.
Proof.
  intros H. unfold readlines.
  rewrite (universal_newlines_id _ (file_lines_no_CR _ H)).
  induction H as [|l Hne Hl|b ls Hb Hls IH]; simpl.
  - reflexivity.
  - rewrite app_nil_r. now apply (lines_from_last l []).
  - rewrite <- app_assoc. simpl. now rewrite lines_from_inline, IH.
Qed.

(** The lines a run writes from the lines of a file are the lines of a
    file. *)
Lemma file_lines_written (pre : list text) : forall post ws,
  file_lines (pre ++ post) ->
  Forall2 (fun l o => o = l \/ o = myisam_sub l) pre ws ->
  file_lines ws.
Proof.
  assert (Hin : Forall inline InnoDB) by (repeat constructor).
  assert (Hsub : forall l o, Forall inline l -> o = l \/ o = myisam_sub l ->
                             Forall inline o).
  { intros l o Hl [-> | ->]; [exact Hl | now apply myisam_sub_Forall]. }
  induction pre as [|l pre IH]; intros post ws Hfl Hall.
  - inversion Hall. constructor.
  - inversion Hall as [|? o ? ws' Ho Hall']; subst.
    simpl in Hfl. inversion Hfl as [| |b ls Hb Hls]; subst.
    + destruct pre; [|discriminate]. inversion Hall'; subst.
      constructor; [|now apply (Hsub l)].
      destruct Ho as [-> | ->]; [assumption | now apply myisam_sub_not_nil].
    + destruct Ho as [-> | ->].
      * constructor; [exact Hb | now apply (IH post)].
      * rewrite myisam_sub_separator by (repeat constructor).
        change (NL :: myisam_sub []) with [NL].
        constructor; [now apply myisam_sub_Forall | now apply (IH post)].
Qed.

(** The transform of a file is idempotent. *)
Lemma transform_idempotent (content : text) :
  transform excluded (transform excluded content) = transform excluded content.
Proof.
  unfold transform.
  destruct (ProcessFiles_positional (readlines content)) as (pre & post & E & Hall & _).
  pose proof (readlines_file_lines content) as Hfl. rewrite E in Hfl.
  rewrite (readlines_concat _ (file_lines_written pre post _ Hfl Hall)).
  now destruct (second_run_changes_nothing_lines (readlines content)) as [-> _].
Qed.

(** C4. The transform is idempotent.  Run a second time, with the same
    exclusion list, on the lines the first run wrote, it writes the same
    lines again and changes none of them; and when the first run ended
    without an error, so does the second.  From file to file: the text the
    transform leaves in the output file is left as it is by a second
    transform. *)
Theorem second_run_changes_nothing :
  (forall infile : list text,
     let first := ProcessFiles excluded infile in
     let second := ProcessFiles excluded (outfile (final first)) in
     outfile (final second) = outfile (final first) /\
     changed (final second) = 0%nat /\
     (returned first = true -> returned second = true)) /\
  (forall content : text,
     transform excluded (transform excluded content) = transform excluded content).
Proof.
  split.
  - exact second_run_changes_nothing_lines.
  - exact transform_idempotent.
Qed.

End Properties.

(** C2. Let the exclusion list be built as the script builds it, every name
    upper-cased, and let [name] be equal to one of the names up to letter
    case (equal once upper-cased).  Then from any point of a run, the marker
    line of the schema [name] and the lines after it up to the next schema
    marker are all written unchanged and counted as preserved, whether or
    not they hold the engine token. *)
Theorem excluded_schema_preserved
    (raw : list text) (i : nat) (line name : text) (scope : list text) (s : locals) :
  database_re line = Some name ->
  (exists e, In e raw /\ upper e = upper name) ->
  Forall (fun l => database_re l = None) scope ->
  exists s', for_loop (map upper raw) i (line :: scope) s = Returned s' /\
             outfile s' = outfile s ++ line :: scope /\
             preserved s' = (preserved s + List.length (line :: scope))%nat /\
             changed s' = changed s.
Proof.
  intros Hl (e & He & Hu) Hscope. apply excluded_schema with (name := name); auto.
  apply mem_In. rewrite <- Hu. now apply in_map.
Qed.

(** ** The scenarios *)

(** C6. On the two lines of scenario A, with the exclusion list of the
    script, the run does not complete: the second line, the first to be
    changed, is met before any table marker has bound [table], and the
    [logging.info] call that reads it raises [UnboundLocalError].  Only the
    first line is written and [changed] is still 0. *)
Theorem scenario_A_raises :
  exists s, ProcessFiles (map upper default_excluded) scenario_A =
            Raised (UnboundLocalError "table") s /\
            outfile s = [textline "CREATE DATABASE `appdb`;"] /\
            changed s = 0%nat /\ preserved s = 1%nat.
Proof. eexists. split; [vm_compute; reflexivity|]. repeat split. Qed.

(** C3. The second line of scenario A belongs to the schema [appdb], which
    is not excluded, and holds the engine token; processing it raises
    [UnboundLocalError] and writes no line at all. *)
Theorem engine_line_before_any_table :
  exists s1 s2,
    for_loop (map upper default_excluded) 0 [textline "CREATE DATABASE `appdb`;"] initial
      = Returned s1 /\
    database s1 = Some (str "appdb") /\ isexcluded s1 = false /\
    myisam_search (textline ") ENGINE=MyISAM;") = true /\
    body (map upper default_excluded) 1 (textline ") ENGINE=MyISAM;") s1
      = Raised (UnboundLocalError "table") s2 /\
    outfile s2 = outfile s1.
Proof.
  eexists. eexists. split; [vm_compute; reflexivity|].
  split; [reflexivity|]. split; [reflexivity|]. split; [reflexivity|].
  split; [vm_compute; reflexivity | reflexivity].
Qed.

(** C5. The output of the run on scenario A has one line where the input
    has two: the second line is dropped. *)
Theorem scenario_A_loses_a_line :
  List.length scenario_A = 2%nat /\
  outfile (final (ProcessFiles (map upper default_excluded) scenario_A)) =
  [textline "CREATE DATABASE `appdb`;"].
Proof. split; [reflexivity | vm_compute; reflexivity]. Qed.

(** ** The script *)

(** C7, as the code has it.  When the output path exists and [--force] is
    not given, the script logs the error and opens no file; the file system,
    the existing output file with it, is as it was; and the script then runs
    to its end, so that the exit status is 0. *)
Theorem existing_output_refused (args : namespace) (fs : filesystem) :
  exists_ fs (output args) = true -> force args = false ->
  files (main args fs) = fs /\
  opened (main args fs) = [] /\
  In (ERROR, AlreadyExists (output args)) (shown (verbose args) (records (main args fs))) /\
  exit_status (main args fs) = 0%nat.
Proof.
  intros He Hf. unfold main. rewrite He, Hf. simpl. repeat split.
  destruct (verbose args); simpl; auto.
Qed.

(** * Further properties *)

Section Further.

Variable excluded : list text.

(** ** The substitution *)

(** X1. After the substitution no occurrence of the source identifier is
    left in the line, in any letter case, and substituting again changes
    nothing. *)
Theorem substitution_is_final (l : text) :
  myisam_search (myisam_sub l) = false /\
  myisam_sub (myisam_sub l) = myisam_sub l.
Proof.
  pose proof (myisam_search_sub l) as H. split; [exact H|].
  now apply myisam_sub_id.
Qed.

Lemma myisam_sub_fixed (l : text) : myisam_sub l = l -> myisam_search l = false.
Proof.
  induction l as [|c l IH]; intros H; [reflexivity|].
  cbn [myisam_search].
  destruct (lit_ci MyISAM (c :: l)) as [rest|] eqn:E.
  - exfalso. rewrite (myisam_sub_match _ _ E) in H.
    change (lit_ci MyISAM (c :: l)) with
      (if ieq 77 c then lit_ci (str "yISAM") l else None) in E.
    destruct (ieq 77 c) eqn:Ec; [|discriminate].
    change (InnoDB ++ myisam_sub rest) with
      (73 :: str "nnoDB" ++ myisam_sub rest) in H.
    injection H as Hc _. subst c. discriminate.
  - rewrite (myisam_sub_keep _ _ E) in H. injection H as H. now apply IH.
Qed.

(** X2. The substitution changes the line exactly when the search finds an
    occurrence: the test [myisam_re.search(line)] of the loop separates the
    lines that [myisam_re.sub] leaves as they are from those it alters. *)
Theorem substitution_changes_what_search_finds (l : text) :
  myisam_sub l = l <-> myisam_search l = false.
Proof. split; [apply myisam_sub_fixed | apply myisam_sub_id]. Qed.

(** X3. The substitution keeps the length of the line: the identifier put
    in has as many characters as any occurrence it replaces. *)
Theorem substitution_keeps_length (l : text) :
  List.length (myisam_sub l) = List.length l.
Proof.
  apply myisam_sub_ind with (P := fun l out => List.length out = List.length l).
  - reflexivity.
  - intros l0 rest E IH. rewrite length_app, IH.
    now rewrite (lit_ci_length _ _ _ E).
  - intros c l0 _ IH. simpl. now rewrite IH.
Qed.

(** ** The marker expressions, again *)

Lemma marker_re_quoted_word (kw l : text) :
  marker_re kw l =
  match lit_ci kw l with Some r0 => dot_star r0 quoted_word | None => None end.
Proof. reflexivity. Qed.

Lemma quoted_word_complete (w b e : text) :
  w <> [] -> Forall word w -> Forall not_newline b -> at_eol e = true ->
  quoted_word (BACKTICK :: w ++ BACKTICK :: b ++ e) <> None.
Proof.
  intros Hne Hw Hb He. unfold quoted_word. cbn [lit1]. rewrite N.eqb_refl.
  destruct w as [|c w]; [contradiction|]. inversion Hw; subst.
  cbn [app word_plus]. match goal with H : word c |- _ => rewrite H end.
  apply word_star_complete; [assumption|]. cbn [lit1]. rewrite N.eqb_refl.
  apply dot_star_complete; [exact Hb|]. now rewrite He.
Qed.

Lemma dot_star_none {A} (k : text -> option A) (a s : text) :
  dot_star (a ++ s) k = None -> Forall not_newline a -> k s = None.
Proof.
  intros H Ha. destruct (k s) eqn:E; [|reflexivity].
  exfalso. apply (dot_star_complete k a s Ha); [rewrite E; discriminate | exact H].
Qed.

(** The first [.*] of a successful match is the longest that lets the rest
    of the expression match. *)
Lemma dot_star_longest {A} (k : text -> option A) (s : text) (r : A) :
  dot_star s k = Some r ->
  exists a s', s = a ++ s' /\ Forall not_newline a /\ k s' = Some r /\
    forall a2 s2, s = a2 ++ s2 -> Forall not_newline a2 ->
                  (List.length a < List.length a2)%nat -> k s2 = None.
Proof.
  induction s as [|c s IH]; simpl; intros H.
  - exists [], []. repeat split; auto.
    intros a2 s2 E _ Hlen. symmetry in E. apply app_eq_nil in E.
    destruct E as [-> _]. simpl in Hlen. lia.
  - destruct (c =? NL) eqn:Hc.
    + exists [], (c :: s). repeat split; auto.
      intros a2 s2 E Ha2 Hlen. destruct a2 as [|c2 a2]; [simpl in Hlen; lia|].
      injection E as <- _. inversion Ha2; subst. unfold not_newline in *. congruence.
    + destruct (dot_star s k) as [r'|] eqn:Es.
      * destruct (IH H) as (a & s' & -> & Ha & Hk & Hmax).
        exists (c :: a), s'. repeat split; auto.
        intros a2 s2 E Ha2 Hlen. destruct a2 as [|c2 a2]; [simpl in Hlen; lia|].
        injection E as _ E. inversion Ha2; subst.
        apply (Hmax a2 s2 E); [assumption | simpl in Hlen; lia].
      * exists [], (c :: s). repeat split; auto.
        intros a2 s2 E Ha2 Hlen. destruct a2 as [|c2 a2]; [simpl in Hlen; lia|].
        injection E as _ E. inversion Ha2; subst.
        now apply (dot_star_none k a2 s2).
Qed.

Lemma app_same_length {X} (a b x y : list X) :
  List.length a = List.length b -> a ++ x = b ++ y -> a = b /\ x = y.
Proof.
  revert b. induction a as [|c a IH]; intros [|d b] Hl E; simpl in *;
    try discriminate; [now split|].
  injection E as -> E. destruct (IH b) as [-> ->]; [lia | exact E | now split].
Qed.

(** A run of word characters followed by a back quote is read in one way
    only. *)
Lemma word_run_unique (w : text) : forall w' x x',
  Forall word w -> Forall word w' ->
  w ++ BACKTICK :: x = w' ++ BACKTICK :: x' -> w = w'.
Proof.
  assert (Hb : ~ word BACKTICK) by (unfold word; discriminate).
  induction w as [|c w IH]; intros [|c' w'] x x' Hw Hw' E; simpl in E.
  - reflexivity.
  - injection E as <- _. inversion Hw'; subst. contradiction.
  - injection E as -> _. inversion Hw; subst. contradiction.
  - injection E as <- E. inversion Hw; inversion Hw'; subst.
    f_equal. now apply (IH w' x x').
Qed.

(** X4. A line matches a marker expression exactly when it reads as the
    keywords (in any letter case, at the very start of the line), any text,
    a non-empty word between back quotes, and any text up to the end of
    the line, the text holding no newline; the name the program takes is the
    word of such a reading. *)
Theorem marker_lines (kw l : text) :
  (marker_re kw l <> None <->
   exists p a name b e, marker_split kw l p a name b e) /\
  (forall name, marker_re kw l = Some name ->
   exists p a b e, marker_split kw l p a name b e).
Proof.
  assert (Hs : forall name, marker_re kw l = Some name ->
                exists p a b e, marker_split kw l p a name b e).
  { intros name H. destruct (marker_re_sound _ _ _ H) as (p & a & b & e & Hm).
    now exists p, a, b, e. }
  split; [|exact Hs]. split.
  - intros H. destruct (marker_re kw l) as [name|] eqn:E; [|contradiction].
    destruct (Hs name eq_refl) as (p & a & b & e & Hm). now exists p, a, name, b, e.
  - intros (p & a & name & b & e & -> & Hp & Ha & Hne & Hw & Hb & He).
    now apply marker_re_complete.
Qed.

(** X5. When a line can be read as a marker line in several ways, the
    program takes the last back-quoted word: the reading it follows has the
    longest text before the word, and no other reading with that text has
    another word. *)
Theorem marker_takes_last_quoted_word (kw l name : text) :
  marker_re kw l = Some name ->
  exists p a b e,
    marker_split kw l p a name b e /\
    forall p' a' name' b' e', marker_split kw l p' a' name' b' e' ->
      (List.length a' <= List.length a)%nat /\
      (List.length a' = List.length a -> name' = name).
Proof.
  intros H. rewrite marker_re_quoted_word in H.
  destruct (lit_ci kw l) as [r0|] eqn:E0; [|discriminate].
  destruct (lit_ci_split _ _ _ E0) as (p & -> & Hp).
  destruct (dot_star_longest _ _ _ H) as (a & r1 & -> & Ha & Hq & Hmax).
  assert (Hsplit : forall p' a' name' b' e',
            marker_split kw (p ++ a ++ r1) p' a' name' b' e' ->
            p' = p /\ a ++ r1 = a' ++ BACKTICK :: name' ++ BACKTICK :: b' ++ e').
  { intros p' a' name' b' e' (E & Hp' & _).
    apply lit_ci_length in Hp. apply lit_ci_length in Hp'.
    assert (Hl : List.length p = List.length p') by lia.
    destruct (app_same_length _ _ _ _ Hl E) as [<- E']. now split. }
  assert (Hle : forall p' a' name' b' e',
            marker_split kw (p ++ a ++ r1) p' a' name' b' e' ->
            (List.length a' <= List.length a)%nat).
  { intros p' a' name' b' e' Hm'. destruct (Hsplit _ _ _ _ _ Hm') as [_ E].
    destruct Hm' as (_ & _ & Ha' & Hne' & Hw' & Hb' & He').
    destruct (Nat.le_gt_cases (List.length a') (List.length a)) as [|Hgt]; [assumption|].
    exfalso. apply (quoted_word_complete name' b' e' Hne' Hw' Hb' He').
    now apply (Hmax a' _ E). }
  (* the reading of the program is the one that [dot_star] chose *)
  unfold quoted_word, lit1 in Hq. destruct r1 as [|c r2]; [discriminate|].
  destruct (c =? BACKTICK) eqn:Hc; [|discriminate]. apply N.eqb_eq in Hc. subst c.
  unfold word_plus in Hq. destruct r2 as [|c r2]; [discriminate|].
  destruct (is_word c) eqn:Hwc; [|discriminate].
  apply word_star_sound in Hq. destruct Hq as (w & r3 & -> & Hws & Hq).
  destruct r3 as [|c' r4]; [discriminate|].
  destruct (c' =? BACKTICK) eqn:Hc'; [|discriminate]. apply N.eqb_eq in Hc'. subst c'.
  apply dot_star_sound in Hq. destruct Hq as (b & e & -> & Hb & Hq).
  destruct (at_eol e) eqn:He; [|discriminate]. injection Hq as <-.
  exists p, a, b, e. split.
  - repeat split; auto. discriminate.
  - intros p' a' name' b' e' Hm'. split; [now apply (Hle p' a' name' b' e')|].
    intros Hlen. destruct (Hsplit _ _ _ _ _ Hm') as [_ E].
    destruct Hm' as (_ & _ & _ & _ & Hw' & _).
    assert (Hl : List.length a = List.length a') by lia.
    destruct (app_same_length _ _ _ _ Hl E) as [_ E2].
    injection E2 as E2. symmetry.
    apply (word_run_unique (c :: w) name' (b ++ e) (b' ++ e'));
      [constructor; assumption | exact Hw' | exact E2].
Qed.

(** X6. No line is a schema marker and a table marker at once: an
    iteration takes at most one of the two marker branches. *)
Theorem markers_exclude_each_other (l : text) :
  database_re l = None \/ table_re l = None.
Proof.
  destruct (table_re l) as [t|] eqn:E; [left | now right].
  apply table_not_database. rewrite E. discriminate.
Qed.

(** X7. The substitution never hides a marker: a schema marker line is
    still one once its occurrences of the identifier are replaced, and so
    is a table marker line. *)
Theorem markers_survive_substitution (l : text) :
  (database_re l <> None -> database_re (myisam_sub l) <> None) /\
  (table_re l <> None -> table_re (myisam_sub l) <> None).
Proof.
  split; intros H.
  - destruct (database_re l) as [d|] eqn:E; [|contradiction].
    destruct (marker_re_sub (str "CREATE DATABASE") l d) as [d' Hd'];
      [repeat constructor | exact E |].
    unfold database_re. rewrite Hd'. discriminate.
  - destruct (table_re l) as [t|] eqn:E; [|contradiction].
    destruct (marker_re_sub (str "CREATE TABLE") l t) as [t' Ht'];
      [repeat constructor | exact E |].
    unfold table_re. rewrite Ht'. discriminate.
Qed.

(** ** The loop, again *)

Lemma text_eqb_eq (a : text) : forall b, text_eqb a b = true -> a = b.
Proof.
  induction a as [|x a IH]; intros [|y b] H; simpl in H; try discriminate;
    [reflexivity|].
  apply andb_prop in H. destruct H as [H1 H2]. apply N.eqb_eq in H1.
  subst. f_equal. now apply IH.
Qed.

Lemma for_loop_consistent (infile : list text) : forall i s s',
  consistent excluded s -> for_loop excluded i infile s = Returned s' ->
  consistent excluded s'.
Proof.
  induction infile as [|l rest IH]; intros i s s' Hc H; simpl in H.
  - now injection H as <-.
  - pose proof (body_inv excluded i l s) as Hb.
    destruct (body excluded i l s) as [s1|e s1]; simpl in H; [|discriminate].
    destruct Hb as (_ & _ & _ & Hd & _ & Hx & _).
    apply (IH _ _ _ (consistent_next excluded l s s1 Hc Hx Hd) H).
Qed.

(** Once the loop has gone through a schema marker [database] is bound to
    a name, and once through a table marker so is [table]. *)
Lemma for_loop_seen (infile : list text) : forall i s s',
  for_loop excluded i infile s = Returned s' ->
  (Exists (fun x => database_re x <> None) infile \/ database s <> None ->
   database s' <> None) /\
  (Exists (fun x => table_re x <> None) infile \/ table s <> None ->
   table s' <> None).
Proof.
  induction infile as [|l rest IH]; intros i s s' H; simpl in H.
  - injection H as <-. split; (intros [Hx|Hs]; [inversion Hx | exact Hs]).
  - pose proof (body_inv excluded i l s) as Hb.
    destruct (body excluded i l s) as [s1|e s1]; simpl in H; [|discriminate].
    destruct Hb as (_ & _ & _ & Hd & Ht & _).
    destruct (IH _ _ _ H) as [IHd IHt]. split.
    + intros Hor. apply IHd.
      destruct Hor as [Hx|Hs]; [inversion Hx; subst|]; [right| now left |right];
        rewrite Hd; unfold next_database; destruct (database_re l); congruence.
    + intros Hor. apply IHt.
      destruct Hor as [Hx|Hs]; [inversion Hx; subst|]; [right| now left |right];
        rewrite Ht; unfold next_table; destruct (table_re l); congruence.
Qed.

(** X8. In a run, once a table marker has been met (the line itself may be
    it), a line that holds the engine token while the schema is not excluded
    is written with its occurrences replaced, in the sense of the
    specification, and counted as changed. *)
Theorem engine_line_after_a_table (pre : list text) (l : text) (s : locals) :
  for_loop excluded 0 pre initial = Returned s ->
  Exists (fun x => table_re x <> None) (pre ++ [l]) ->
  next_isexcluded excluded l s = false -> myisam_search l = true ->
  exists s', body excluded (List.length pre) l s = Returned s' /\
             outfile s' = outfile s ++ [myisam_sub l] /\
             changed s' = S (changed s) /\ preserved s' = preserved s /\
             Replaced l (myisam_sub l).
Proof.
  intros Hl Hex Hx Hs.
  assert (Ht : next_table l s <> None).
  { unfold next_table. destruct (table_re l) as [t|] eqn:Et; [discriminate|].
    apply Exists_app in Hex. destruct Hex as [Hex|Hex].
    - destruct (for_loop_seen _ _ _ _ Hl) as [_ H]. apply H. now left.
    - inversion Hex as [? ? H|? ? H]; subst; [now rewrite Et in H | inversion H]. }
  destruct (next_table l s) as [t|] eqn:Et; [|contradiction].
  destruct (engine_line_converted excluded (List.length pre) l t s Hx Hs Et)
    as (s' & Hb & Ho & Hc & Hp & Hr & _).
  exists s'. repeat split; assumption.
Qed.

(** X9. In a run, only a schema marker switches the exclusion: a line that
    is one leaves its name in [database] and the membership test of that
    name in [isexcluded]; any other line, a table marker too, leaves both
    as they were.  [isexcluded] always is the membership test of the current
    schema. *)
Theorem exclusion_follows_schema_markers (pre : list text) (l : text) (s s' : locals) :
  for_loop excluded 0 pre initial = Returned s ->
  body excluded (List.length pre) l s = Returned s' ->
  consistent excluded s' /\
  match database_re l with
  | Some d => database s' = Some d /\ isexcluded s' = mem (upper d) excluded
  | None => database s' = database s /\ isexcluded s' = isexcluded s
  end.
Proof.
  intros Hl Hb.
  assert (Hc : consistent excluded s).
  { apply (for_loop_consistent pre 0 initial); [reflexivity | exact Hl]. }
  pose proof (body_inv excluded (List.length pre) l s) as H. rewrite Hb in H.
  destruct H as (_ & _ & _ & Hd & _ & Hx & _).
  split; [apply (consistent_next excluded l s s' Hc Hx Hd)|].
  rewrite (next_isexcluded_consistent excluded l s Hc) in Hx.
  unfold next_database in *. destruct (database_re l) as [d|].
  - now split.
  - split; [exact Hd|]. now rewrite Hx, Hc.
Qed.

Lemma Forall2_nth_error_r {X Y} (R : X -> Y -> Prop) (xs : list X) (ys : list Y) :
  Forall2 R xs ys -> forall k y, nth_error ys k = Some y ->
  exists x, nth_error xs k = Some x /\ R x y.
Proof.
  induction 1 as [|x y xs ys Hr Hall IH]; intros k y0 Hk.
  - destruct k; discriminate.
  - destruct k as [|k]; simpl in *.
    + injection Hk as <-. now exists x.
    + now apply IH.
Qed.

(** X10. Whatever the input and however the run ends, the lines written
    are the first lines of the input in their order, one for one: the line
    written at a place is the input line of that place, or its substitution
    when that line holds the engine token.  Nothing is inserted or
    reordered, and a run that returns has written a line for every line of
    the input. *)
Theorem written_lines_follow_input (infile : list text) :
  let r := ProcessFiles excluded infile in
  (List.length (outfile (final r)) <= List.length infile)%nat /\
  (returned r = true -> List.length (outfile (final r)) = List.length infile) /\
  forall k o, nth_error (outfile (final r)) k = Some o ->
    exists l, nth_error infile k = Some l /\
              (o = l \/ (myisam_search l = true /\ o = myisam_sub l)).
Proof.
  cbv zeta.
  destruct (ProcessFiles_positional excluded infile) as (pre & post & -> & Hall & Hret).
  pose proof (Forall2_length Hall) as Hlen. rewrite length_app, <- Hlen.
  split; [lia|]. split.
  - intros H. rewrite (Hret H). simpl. lia.
  - intros k o Hk.
    destruct (Forall2_nth_error_r _ _ _ Hall k o Hk) as (l & Hl & Ho).
    exists l. split.
    + rewrite nth_error_app1; [exact Hl|]. apply nth_error_Some. congruence.
    + destruct (myisam_search l) eqn:Hs; [destruct Ho; auto|].
      left. destruct Ho as [-> | ->]; [reflexivity | now apply myisam_sub_id].
Qed.

Lemma differing_cons (l o : text) (ls os : list text) :
  differing (l :: ls) (o :: os) =
  ((if text_eqb l o then 0 else 1) + differing ls os)%nat /\
  agreeing (l :: ls) (o :: os) =
  ((if text_eqb l o then 1 else 0) + agreeing ls os)%nat.
Proof. unfold differing, agreeing. simpl. now destruct (text_eqb l o). Qed.

Lemma for_loop_differing (infile : list text) : forall i s,
  exists ws,
    outfile (final (for_loop excluded i infile s)) = outfile s ++ ws /\
    changed (final (for_loop excluded i infile s)) = (changed s + differing infile ws)%nat /\
    preserved (final (for_loop excluded i infile s)) = (preserved s + agreeing infile ws)%nat.
Proof.
  induction infile as [|l rest IH]; intros i s; simpl.
  - exists []. rewrite app_nil_r. unfold differing, agreeing. simpl. auto.
  - pose proof (body_inv excluded i l s) as Hb.
    destruct (body excluded i l s) as [s1|e s1]; simpl.
    + destruct Hb as (_ & _ & Ho & _ & _ & _ & _ & Hcnt).
      destruct (IH (S i) s1) as (ws & Hw & Hc & Hp).
      exists (written excluded l s :: ws).
      destruct (differing_cons l (written excluded l s) rest ws) as [-> ->].
      rewrite Hw, Hc, Hp, Ho, <- app_assoc. split; [reflexivity|].
      unfold written in *.
      destruct (negb (next_isexcluded excluded l s) && myisam_search l) eqn:Hif.
      * apply andb_prop in Hif. destruct Hif as [_ Hs].
        destruct (text_eqb l (myisam_sub l)) eqn:E.
        { apply text_eqb_eq in E. symmetry in E. apply myisam_sub_fixed in E. congruence. }
        destruct Hcnt as [-> ->]. split; lia.
      * rewrite text_eqb_refl. destruct Hcnt as [-> ->]. split; lia.
    + destruct Hb as (Ho & Hc & Hp & _).
      exists []. rewrite Ho, Hc, Hp, app_nil_r. unfold differing, agreeing.
      rewrite combine_nil. simpl. auto.
Qed.

(** X11. The two counters tell what happened to the text: [changed] is the
    number of lines written that differ from the input line at their place,
    [preserved] the number written that are the same, whatever the input and
    however the run ends. *)
Theorem counters_count_differences (infile : list text) :
  let s := final (ProcessFiles excluded infile) in
  changed s = differing infile (outfile s) /\
  preserved s = agreeing infile (outfile s).
Proof.
  cbv zeta. destruct (for_loop_differing infile 0 initial) as (ws & Hw & Hc & Hp).
  unfold ProcessFiles.
  destruct (for_loop excluded 0 infile initial) as [s|e s]; simpl in *.
  - unfold summary. destruct (n s); simpl; rewrite Hw, Hc, Hp; auto.
  - rewrite Hw, Hc, Hp. auto.
Qed.

Lemma statements_changing (i : nat) (l : text) (s : locals) :
  (forall s', s' = final (on_database excluded i l s) \/
              s' = final (on_table excluded i l s) ->
     changed s' = changed s /\
     List.length (filter is_changing (log s')) = List.length (filter is_changing (log s))) /\
  (let s' := final (on_engine i l s) in
   (List.length (filter is_changing (log s')) + changed s =
    List.length (filter is_changing (log s)) + changed s')%nat).
Proof.
  split.
  - intros s' [-> | ->]; unfold on_database, on_table.
    + destruct (database_re l); simpl; [|auto].
      rewrite filter_app, length_app. simpl. split; [reflexivity | lia].
    + destruct (table_re l); simpl; [|auto].
      destruct (database s); simpl; [|auto].
      rewrite filter_app, length_app. simpl. split; [reflexivity | lia].
  - cbv zeta. unfold on_engine.
    destruct (negb (isexcluded s) && myisam_search l); simpl; [|lia].
    destruct (table s); simpl; [|lia].
    rewrite filter_app, length_app. simpl. lia.
Qed.

Lemma body_changing (i : nat) (l : text) (s : locals) :
  let s' := final (body excluded i l s) in
  (List.length (filter is_changing (log s')) + changed s =
   List.length (filter is_changing (log s)) + changed s')%nat.
Proof.
  cbv zeta. unfold body, andthen.
  destruct (statements_changing i l (set_n i s)) as [H1 _].
  specialize (H1 _ (or_introl eq_refl)).
  destruct (on_database excluded i l (set_n i s)) as [s0|e s0]; simpl in H1;
    [|simpl; lia].
  destruct (statements_changing i l s0) as [H2 H3].
  specialize (H2 _ (or_intror eq_refl)). cbv zeta in H3.
  destruct (on_table excluded i l s0) as [s1|e s1]; simpl in H2; [|simpl; lia].
  destruct (statements_changing i l s1) as [_ H4]. cbv zeta in H4. lia.
Qed.

Lemma for_loop_changing (infile : list text) : forall i s,
  let s' := final (for_loop excluded i infile s) in
  (List.length (filter is_changing (log s')) + changed s =
   List.length (filter is_changing (log s)) + changed s')%nat.
Proof.
  induction infile as [|l rest IH]; intros i s; simpl; [reflexivity|].
  pose proof (body_changing i l s) as Hb. cbv zeta in Hb.
  destruct (body excluded i l s) as [s1|e s1]; simpl in *; [|exact Hb].
  specialize (IH (S i) s1). cbv zeta in IH. lia.
Qed.

(** X12. The diagnostics agree with the counter: the log of a run holds
    one record of a changed line for every line counted in [changed],
    whatever the input and however the run ends. *)
Theorem one_record_per_changed_line (infile : list text) :
  let s := final (ProcessFiles excluded infile) in
  List.length (filter is_changing (log s)) = changed s.
Proof.
  cbv zeta. pose proof (for_loop_changing infile 0 initial) as H. cbv zeta in H.
  unfold ProcessFiles.
  destruct (for_loop excluded 0 infile initial) as [s|e s]; simpl in *; [|lia].
  unfold summary. destruct (n s); simpl; [|lia].
  rewrite filter_app, length_app. simpl. lia.
Qed.

Lemma well_ordered_returns (infile : list text) : forall i s sd st,
  consistent excluded s ->
  (sd = true -> database s <> None) -> (sd = false -> database s = None) ->
  (st = true -> table s <> None) ->
  well_ordered sd st infile = true ->
  returned (for_loop excluded i infile s) = true.
Proof.
  induction infile as [|l rest IH]; intros i s sd st Hc Hsd Hsd' Hst Hw; [reflexivity|].
  cbn [well_ordered] in Hw. apply andb_prop in Hw. destruct Hw as [Hw Hrest].
  apply andb_prop in Hw. destruct Hw as [H1 H2].
  assert (Hnd : sd || marks (database_re l) = true -> next_database l s <> None).
  { intros H. unfold next_database. destruct (database_re l); [discriminate|].
    simpl in H. rewrite orb_false_r in H. now apply Hsd. }
  assert (Hnd' : sd || marks (database_re l) = false -> next_database l s = None).
  { intros H. apply orb_false_elim in H. destruct H as [Hs Hm].
    unfold next_database. destruct (database_re l); [discriminate|]. now apply Hsd'. }
  assert (Hnt : st || marks (table_re l) = true -> next_table l s <> None).
  { intros H. unfold next_table. destruct (table_re l); [discriminate|].
    simpl in H. rewrite orb_false_r in H. now apply Hst. }
  simpl. pose proof (body_inv excluded i l s) as Hb.
  destruct (body excluded i l s) as [s1|e s1]; simpl.
  - destruct Hb as (_ & _ & _ & Hd & Ht & Hx & _).
    apply (IH (S i) s1 _ _) with (5 := Hrest).
    + apply (consistent_next excluded l s s1 Hc Hx Hd).
    + intros H. rewrite Hd. now apply Hnd.
    + intros H. rewrite Hd. now apply Hnd'.
    + intros H. rewrite Ht. now apply Hnt.
  - exfalso. destruct Hb as (_ & _ & _ & [(_ & Ht & Hd) | (_ & Hx & Hs & Ht & _)]).
    + apply Hnd; [|exact Hd]. destruct (table_re l); [|contradiction].
      simpl in H1. exact H1.
    + rewrite Hs in H2. simpl in H2. apply orb_prop in H2. destruct H2 as [H2|H2].
      * now apply Hnt.
      * apply negb_true_iff in H2.
        rewrite (next_isexcluded_consistent excluded l s Hc), (Hnd' H2) in Hx.
        discriminate.
Qed.

(** X13. A dump that is not empty and is in the order the program relies
    on (no table marker before the first schema marker, and from that schema
    marker on no line holding the engine token before the first table
    marker) is gone through to its end: the run returns, with a line written
    for every line of the input. *)
Theorem well_ordered_dump_is_converted (infile : list text) :
  infile <> [] -> well_ordered false false infile = true ->
  returned (ProcessFiles excluded infile) = true /\
  List.length (outfile (final (ProcessFiles excluded infile))) = List.length infile.
Proof.
  intros Hne Hw.
  assert (Hr : returned (ProcessFiles excluded infile) = true).
  { destruct (ProcessFiles_final excluded infile) as (_ & _ & ->).
    assert (H : returned (for_loop excluded 0 infile initial) = true)
      by (apply (well_ordered_returns infile 0 initial false false);
          [reflexivity | discriminate | reflexivity | discriminate | exact Hw]).
    destruct (for_loop excluded 0 infile initial) as [s|e s] eqn:El; [|discriminate].
    destruct (for_loop_counts excluded _ _ _ _ El) as [_ Hn]. simpl.
    now rewrite Hn. }
  split; [exact Hr|].
  destruct (ProcessFiles_positional excluded infile) as (pre & post & E & Hall & Hret).
  rewrite <- (Forall2_length Hall). specialize (Hret Hr). subst post.
  now rewrite E, app_nil_r.
Qed.

(** ** The script, again *)

Lemma fs_write_same (fs : filesystem) (path : string) (content : text) :
  fs_write fs path content path = Some content.
Proof. unfold fs_write. now rewrite String.eqb_refl. Qed.

Lemma fs_write_other (fs : filesystem) (path p : string) (content : text) :
  p <> path -> fs_write fs path content p = fs p.
Proof. intros H. unfold fs_write. apply String.eqb_neq in H. now rewrite H. Qed.

(** X14. With [--force], naming the same file as input and output destroys
    it: the file is truncated when it is opened for writing, before a line
    of it is read, so the loop gets no line, the run fails on the final
    summary with exit status 1, and the file is left empty. *)
Theorem same_file_is_emptied (args : namespace) (fs : filesystem) :
  output args = input args -> force args = true ->
  exists_ fs (input args) = true ->
  files (main args fs) (input args) = Some [] /\
  exit_status (main args fs) = 1%nat /\
  forall p, p <> input args -> files (main args fs) p = fs p.
Proof.
  intros Ho Hf He. unfold main. rewrite Ho, Hf, andb_false_r.
  unfold exists_ in He. destruct (fs (input args)) as [content|]; [|discriminate].
  rewrite fs_write_same. cbn [readlines universal_newlines lines_from].
  change (ProcessFiles (map upper default_excluded) [])
    with (Raised (UnboundLocalError "n") initial).
  cbn [final returned outfile initial List.concat files exit_status].
  split; [apply fs_write_same|]. split; [reflexivity|].
  intros p Hp. now rewrite !fs_write_other.
Qed.


(** X16. When the input file does not exist (and the output may be
    written), the script fails before it opens the output: no file is
    created or changed, none stays open, and the exit status is 1. *)
Theorem missing_input_changes_nothing (args : namespace) (fs : filesystem) :
  fs (input args) = None ->
  exists_ fs (output args) = false \/ force args = true ->
  files (main args fs) = fs /\ opened (main args fs) = [] /\
  exit_status (main args fs) = 1%nat.
Proof.
  intros Hi Hor. unfold main.
  assert (Hc : exists_ fs (output args) && negb (force args) = false)
    by (destruct Hor as [-> | ->]; [reflexivity | apply andb_false_r]).
  rewrite Hc, Hi. repeat split.
Qed.


Lemma concat_lines_from (s : text) : forall cur,
  List.concat (lines_from cur s) = cur ++ s.
Proof.
  induction s as [|c s IH]; intros cur; simpl.
  - destruct cur; simpl; [reflexivity | now rewrite !app_nil_r].
  - destruct (c =? NL); simpl; rewrite IH; now rewrite <- app_assoc.
Qed.

(** X18. A dump in which no line holds the engine token is copied: every
    line written is the input line, nothing is counted as changed, and when
    the run returns the text left in the output file is the text of the
    input file with its newlines in Python's universal form. *)
Theorem dump_without_token_is_copied (content : text) :
  Forall (fun l => myisam_search l = false) (readlines content) ->
  let r := ProcessFiles excluded (readlines content) in
  (exists post, readlines content = outfile (final r) ++ post) /\
  changed (final r) = 0%nat /\
  (returned r = true -> transform excluded content = universal_newlines content).
Proof.
  intros Hno. cbv zeta.
  destruct (ProcessFiles_positional excluded (readlines content))
    as (pre & post & E & Hall & Hret).
  assert (Hpre : pre = outfile (final (ProcessFiles excluded (readlines content)))).
  { rewrite E in Hno. apply Forall_app in Hno. destruct Hno as [Hno _].
    revert Hno. clear - Hall. induction Hall as [|l o ls os Ho Hall IH]; intros Hno.
    - reflexivity.
    - inversion Hno; subst. f_equal; [|now apply IH].
      destruct Ho as [-> | ->]; [reflexivity | symmetry; now apply myisam_sub_id]. }
  split; [exists post; now rewrite <- Hpre|]. split.
  - destruct (ProcessFiles_final excluded (readlines content)) as (Ho & -> & _).
    destruct (for_loop_differing (readlines content) 0 initial) as (ws & Hw & -> & _).
    rewrite Ho, Hw in Hpre. simpl in Hpre. subst ws. rewrite E. clear.
    unfold differing. induction pre as [|l pre IH]; simpl.
    + now rewrite combine_nil.
    + now rewrite text_eqb_refl.
  - intros Hr. unfold transform. rewrite <- Hpre.
    specialize (Hret Hr). subst post. rewrite app_nil_r in E. rewrite <- E.
    unfold readlines. apply concat_lines_from.
Qed.

End Further.

End Transformer.

(** * The statements at concrete inputs *)

(** C1 on [small_dump], whose seven lines are all gone through. *)
Lemma counters_add_up_witness :
  let ex := map (upper plain_upper) default_excluded in
  let s := final (for_loop plain_isalnum plain_upper ex 0 small_dump initial) in
  (changed s + preserved s = 7)%nat /\ changed s = 1%nat /\
  ProcessFiles plain_isalnum plain_upper ex small_dump =
  Returned (logging_info (Summary 7 (changed s) (preserved s)) s).
Proof.
  cbv zeta.
  destruct (counters_add_up plain_isalnum plain_upper
              (map (upper plain_upper) default_excluded) small_dump 7
              (final (for_loop plain_isalnum plain_upper
                        (map (upper plain_upper) default_excluded) 0 small_dump initial)))
    as (Hsum & _ & Hfull).
  - simpl. lia.
  - vm_compute. reflexivity.
  - split; [exact Hsum|]. split; [vm_compute; reflexivity|].
    apply Hfull; [reflexivity | discriminate].
Defined.

(** C8 on [small_dump], whose first line comes before any marker. *)
Lemma preamble_preserved_witness :
  exists s,
    for_loop plain_isalnum plain_upper (map (upper plain_upper) default_excluded) 0
      (firstn 1 small_dump) initial = Returned s /\
    outfile s = firstn 1 small_dump /\ preserved s = 1%nat /\ changed s = 0%nat.
Proof.
  destruct (preamble_preserved plain_isalnum plain_upper
              (map (upper plain_upper) default_excluded)
              (firstn 1 small_dump) (skipn 1 small_dump))
    as (_ & s & Hl & Ho & Hp & Hc & _).
  - repeat constructor.
  - exists s. repeat split; assumption.
Defined.

(** C2 on the schema [MySQL] of [small_dump], excluded through the entry
    [mysql] of the default list. *)
Lemma excluded_schema_preserved_witness :
  exists s,
    for_loop plain_isalnum plain_upper (map (upper plain_upper) default_excluded) 1
      (firstn 3 (skipn 1 small_dump)) initial = Returned s /\
    outfile s = firstn 3 (skipn 1 small_dump) /\
    preserved s = 3%nat /\ changed s = 0%nat.
Proof.
  destruct (excluded_schema_preserved plain_isalnum plain_upper default_excluded 1
              (textline "CREATE DATABASE `MySQL`;") (str "MySQL")
              [textline "CREATE TABLE `user` ("; textline ") ENGINE=MyISAM;"] initial)
    as (s & Hl & Ho & Hp & Hc).
  - vm_compute. reflexivity.
  - exists (str "mysql"). split; [now left | vm_compute; reflexivity].
  - repeat constructor.
  - exists s. repeat split; assumption.
Defined.

(** C9 on a dump whose first table comes before any schema marker. *)
Lemma table_marker_before_schema_marker_witness :
  exists s k,
    ProcessFiles plain_isalnum plain_upper (map (upper plain_upper) default_excluded)
      (firstn 1 small_dump ++ textline "CREATE TABLE `user` (" :: skipn 3 small_dump)
    = Raised AttributeError s /\
    outfile s = firstn k (firstn 1 small_dump).
Proof.
  destruct (table_marker_before_schema_marker plain_isalnum plain_upper
              (map (upper plain_upper) default_excluded)) as (_ & H & _).
  destruct (H (firstn 1 small_dump) (textline "CREATE TABLE `user` (")
              (skipn 3 small_dump)) as (s & k & Hr & Ho & _).
  - repeat constructor.
  - vm_compute. discriminate.
  - exists s, k. split; assumption.
Defined.

(** C10 on [small_dump]: the report states seven lines. *)
Lemma summary_needs_a_line_witness :
  let ex := map (upper plain_upper) default_excluded in
  let s := final (for_loop plain_isalnum plain_upper ex 0 small_dump initial) in
  n s = Some 6%nat /\
  ProcessFiles plain_isalnum plain_upper ex small_dump =
  Returned (logging_info (Summary (6 + 1) (changed s) (preserved s)) s).
Proof.
  cbv zeta.
  destruct (summary_needs_a_line plain_isalnum plain_upper
              (map (upper plain_upper) default_excluded)) as (_ & _ & H).
  apply (H small_dump); [discriminate | vm_compute; reflexivity].
Defined.

(** C4 on [small_dump]: the first run changes one line, the second none. *)
Lemma second_run_changes_nothing_witness :
  let ex := map (upper plain_upper) default_excluded in
  let first := ProcessFiles plain_isalnum plain_upper ex small_dump in
  let second := ProcessFiles plain_isalnum plain_upper ex (outfile (final first)) in
  changed (final first) = 1%nat /\
  outfile (final second) = outfile (final first) /\
  changed (final second) = 0%nat /\ returned second = true.
Proof.
  cbv zeta.
  destruct (second_run_changes_nothing plain_isalnum plain_upper
              (map (upper plain_upper) default_excluded)) as (H & _).
  destruct (H small_dump) as (Ho & Hc & Hr).
  split; [vm_compute; reflexivity|]. split; [exact Ho|]. split; [exact Hc|].
  apply Hr. vm_compute. reflexivity.
Defined.

(** C7 as the code has it, on scenario C. *)
Lemma existing_output_refused_witness :
  files (main plain_isalnum plain_upper scenario_C_args scenario_C_files) = scenario_C_files /\
  opened (main plain_isalnum plain_upper scenario_C_args scenario_C_files) = [] /\
  exit_status (main plain_isalnum plain_upper scenario_C_args scenario_C_files) = 0%nat.
Proof.
  destruct (existing_output_refused plain_isalnum plain_upper
              scenario_C_args scenario_C_files) as (Hf & Ho & _ & He).
  - reflexivity.
  - reflexivity.
  - repeat split; assumption.
Defined.

(** C7 as the specification states it fails on scenario C: the output file
    exists, [--force] is not given, and the exit status does not indicate a
    failure. *)
Lemma existing_output_exit_status :
  exists_ scenario_C_files (output scenario_C_args) = true /\
  force scenario_C_args = false /\
  ~ indicates_failure
      (exit_status (main plain_isalnum plain_upper scenario_C_args scenario_C_files)).
Proof.
  split; [reflexivity|]. split; [reflexivity|].
  intros H. apply H. reflexivity.
Qed.

(** * The further properties at concrete inputs *)

(** X5 on a line with two back-quoted words: the second is taken. *)
Lemma marker_takes_last_quoted_word_witness :
  exists p a b e,
    marker_split plain_isalnum (str "CREATE DATABASE")
      (textline "CREATE DATABASE `a` `b`;") p a (str "b") b e.
Proof.
  destruct (marker_takes_last_quoted_word plain_isalnum (str "CREATE DATABASE")
              (textline "CREATE DATABASE `a` `b`;") (str "b"))
    as (p & a & b & e & H & _).
  - vm_compute. reflexivity.
  - now exists p, a, b, e.
Defined.

(** X8 on the last line of [small_dump]. *)
Lemma engine_line_after_a_table_witness :
  let ex := map (upper plain_upper) default_excluded in
  let s := final (for_loop plain_isalnum plain_upper ex 0 (firstn 6 small_dump) initial) in
  exists s', body plain_isalnum plain_upper ex 6 (textline ") engine=myisam;") s
             = Returned s' /\
             outfile s' = outfile s ++ [textline ") engine=InnoDB;"].
Proof.
  cbv zeta.
  destruct (engine_line_after_a_table plain_isalnum plain_upper
              (map (upper plain_upper) default_excluded)
              (firstn 6 small_dump) (textline ") engine=myisam;")
              (final (for_loop plain_isalnum plain_upper
                        (map (upper plain_upper) default_excluded) 0
                        (firstn 6 small_dump) initial)))
    as (s' & Hb & Ho & _).
  - vm_compute. reflexivity.
  - apply Exists_exists. exists (textline "CREATE TABLE `t` (").
    split; [simpl; tauto | vm_compute; discriminate].
  - vm_compute. reflexivity.
  - vm_compute. reflexivity.
  - exists s'. split; [exact Hb | exact Ho].
Defined.

(** X9 on the second schema marker of [small_dump], which ends the
    exclusion. *)
Lemma exclusion_follows_schema_markers_witness :
  let ex := map (upper plain_upper) default_excluded in
  let s := final (for_loop plain_isalnum plain_upper ex 0 (firstn 4 small_dump) initial) in
  let s' := final (body plain_isalnum plain_upper ex 4 (textline "CREATE DATABASE `appdb`;") s) in
  isexcluded s = true /\ database s' = Some (str "appdb") /\ isexcluded s' = false.
Proof.
  cbv zeta.
  destruct (exclusion_follows_schema_markers plain_isalnum plain_upper
              (map (upper plain_upper) default_excluded)
              (firstn 4 small_dump) (textline "CREATE DATABASE `appdb`;")
              (final (for_loop plain_isalnum plain_upper
                        (map (upper plain_upper) default_excluded) 0
                        (firstn 4 small_dump) initial))
              (final (body plain_isalnum plain_upper
                        (map (upper plain_upper) default_excluded) 4
                        (textline "CREATE DATABASE `appdb`;")
                        (final (for_loop plain_isalnum plain_upper
                                  (map (upper plain_upper) default_excluded) 0
                                  (firstn 4 small_dump) initial)))))
    as (_ & H).
  - vm_compute. reflexivity.
  - vm_compute. reflexivity.
  - split; [vm_compute; reflexivity|].
    change (database_re plain_isalnum (textline "CREATE DATABASE `appdb`;"))
      with (Some (str "appdb")) in H.
    destruct H as [Hd Hx]. split; [exact Hd|]. rewrite Hx. vm_compute. reflexivity.
Defined.

(** X13 on [small_dump]. *)
Lemma well_ordered_dump_is_converted_witness :
  returned (ProcessFiles plain_isalnum plain_upper
              (map (upper plain_upper) default_excluded) small_dump) = true /\
  List.length (outfile (final (ProcessFiles plain_isalnum plain_upper
                 (map (upper plain_upper) default_excluded) small_dump))) = 7%nat.
Proof.
  apply (well_ordered_dump_is_converted plain_isalnum plain_upper
           (map (upper plain_upper) default_excluded) small_dump).
  - discriminate.
  - vm_compute. reflexivity.
Defined.

(** X14 on the files of scenario C, [dump.sql] being input and output. *)
Lemma same_file_is_emptied_witness :
  files (main plain_isalnum plain_upper (mkArgs false true "dump.sql" "dump.sql")
              scenario_C_files) "dump.sql"%string = Some [] /\
  exit_status (main plain_isalnum plain_upper (mkArgs false true "dump.sql" "dump.sql")
                 scenario_C_files) = 1%nat.
Proof.
  destruct (same_file_is_emptied plain_isalnum plain_upper
              (mkArgs false true "dump.sql" "dump.sql") scenario_C_files)
    as (Hf & He & _).
  - reflexivity.
  - reflexivity.
  - reflexivity.
  - split; [exact Hf | exact He].
Defined.


(** X16 on the files of scenario C and an input that is not among them. *)
Lemma missing_input_changes_nothing_witness :
  files (main plain_isalnum plain_upper (mkArgs false false "absent.sql" "new.sql")
              scenario_C_files) = scenario_C_files /\
  exit_status (main plain_isalnum plain_upper (mkArgs false false "absent.sql" "new.sql")
                 scenario_C_files) = 1%nat.
Proof.
  destruct (missing_input_changes_nothing plain_isalnum plain_upper
              (mkArgs false false "absent.sql" "new.sql") scenario_C_files)
    as (Hf & _ & He).
  - reflexivity.
  - left. reflexivity.
  - split; [exact Hf | exact He].
Defined.


(** X18 on a dump of two marker lines. *)
Lemma dump_without_token_is_copied_witness :
  transform plain_isalnum plain_upper (map (upper plain_upper) default_excluded)
    (List.concat (firstn 2 (skipn 4 small_dump)))
  = universal_newlines (List.concat (firstn 2 (skipn 4 small_dump))).
Proof.
  destruct (dump_without_token_is_copied plain_isalnum plain_upper
              (map (upper plain_upper) default_excluded)
              (List.concat (firstn 2 (skipn 4 small_dump))))
    as (_ & _ & H).
  - vm_compute. repeat constructor.
  - apply H. vm_compute. reflexivity.
Defined.

